(** * ClickHouse / LLM integration workshop scripts: a shallow embedding

    The three scripts of [2026/clickhouse_llm_integration_knn] are modelled
    here:

    - [optimize_table.py]  (module [OptimizeTable]): background pool status,
      the synchronous OPTIMIZE run and the interactive [main];
    - [ingest_chunks.py]   (module [IngestChunks]): building the rows of one
      batch and inserting them;
    - [query_knn.py]       (module [QueryKnn]): the KNN [SELECT] and its
      evaluation over the table.

    Conventions.  Python [int] is [Z].  A Python [float] is represented by
    the rational number it stands for; the float operations of
    [optimize_table.py] (true division, product, [round]) return the
    binary64 number nearest to the exact result, ties to even
    ([Py.binary64]); overflow is not modelled (the pool metrics are 64-bit
    integers).  Clock readings, embedding components and distances are
    rationals as well.  Exceptions are explicit: a computation returns
    [Returned v] or [Raised e].  [str.strip] and [str.lower] are parameters
    of [main].  The embedding model and the server's [cosineDistance] are
    parameters too; the server answers the KNN statement, or rejects it when
    it meets a stored embedding of another length than the query vector
    ([QueryKnn.ch_query]). *)

From Stdlib Require Import ZArith QArith Qpower List String Ascii Bool Lia.
From Stdlib Require Import Permutation Sorted Lqa.
Import ListNotations.

Set Implicit Arguments.

(** ** Python numerics *)

Module Py.

(** [round] on a rational seen as a decimal: nearest integer, ties to the
    even neighbour (what Python's [round] does on the exact value). *)
Definition round_half_even (q : Q) : Z :=
  let n := Qnum q in
  let d := Zpos (Qden q) in
  let f := (n / d)%Z in
  let r := (2 * (n mod d))%Z in
  if (r <? d)%Z then f
  else if (d <? r)%Z then (f + 1)%Z
  else if Z.even f then f else (f + 1)%Z.

(** [2^e], for any integer [e]. *)
Definition pow2 (e : Z) : Q := 2 ^ e.

(** [floor (log2 q)], for [q > 0]. *)
Definition ilog2 (q : Q) : Z :=
  let k := (Z.log2 (Qnum q) - Z.log2 (Zpos (Qden q)))%Z in
  if Qle_bool (pow2 k) q then k else (k - 1)%Z.

(** The exponent of the last place of the binary64 numbers around [q > 0]:
    53 significant bits, and no exponent below -1074 (subnormal numbers). *)
Definition ulp_exponent (q : Q) : Z := Z.max (ilog2 q - 52) (-1074).

(** The binary64 number nearest to [q > 0], ties to even. *)
Definition round_positive (q : Q) : Q :=
  inject_Z (round_half_even (q / pow2 (ulp_exponent q)))
  * pow2 (ulp_exponent q).

(** The value of the float nearest to [q], as a reduced fraction. *)
Definition binary64 (q : Q) : Q :=
  Qred match Qnum q with
       | Z0 => 0
       | Zpos _ => round_positive q
       | Zneg _ => - round_positive (- q)
       end.

(** [x * y] on two floats. *)
Definition fmul (x y : Q) : Q := binary64 (x * y).

(** [round(x, 2)] on a float: the decimal with two places nearest to the
    exact value of [x], ties to even, then the float nearest to it. *)
Definition round2 (x : Q) : Q :=
  binary64 (inject_Z (round_half_even (x * 100)) / 100).

(** [x in l] for a list of strings. *)
Definition str_in (x : string) (l : list string) : bool :=
  existsb (String.eqb x) l.

(** [str(x)] / f-string interpolation of a value that may be [None]. *)
Definition str_of_opt (x : option string) : string :=
  match x with Some s => s | None => "None" end.

(** Truth value of an optional string ([if table_name:]). *)
Definition truthy (x : option string) : bool :=
  match x with Some (String _ _) => true | _ => false end.

(** Exceptions: [Exn] stands for an instance of [Exception] (what
    [except Exception] catches), [BaseExn] for the others
    ([KeyboardInterrupt], [SystemExit]). *)
Inductive exn : Type :=
| Exn (msg : string)
| BaseExn (msg : string).

Inductive outcome (A : Type) : Type :=
| Returned (a : A)
| Raised (e : exn).
Arguments Raised {A} e.

(** Sequencing of steps that may raise. *)
Definition and_then {A B} (o : outcome A) (f : A -> outcome B) : outcome B :=
  match o with
  | Returned a => f a
  | Raised e => Raised e
  end.

(** [a / b] on two ints (true division): the float nearest to the
    quotient. *)
Definition truediv (a b : Z) : outcome Q :=
  if (b =? 0)%Z then Raised (Exn "ZeroDivisionError")
  else Returned (binary64 (inject_Z a / inject_Z b)).

(** The wall clock: [reading k] is what the [k]-th sampling returns. *)
Record Clock : Type := mkClock {
  reading : nat -> Q;
  ticks : nat
}.

Definition sample (c : Clock) : Q * Clock :=
  (reading c (ticks c), {| reading := reading c; ticks := S (ticks c) |}).

End Py.

Arguments Py.binary64 q : simpl never.
Arguments Py.fmul x y : simpl never.
Arguments Py.round2 x : simpl never.

(** ** optimize_table.py *)

Module OptimizeTable.

(** The dict returned by [check_background_pool_status]. *)
Record PoolStatus : Type := mkPoolStatus {
  active_tasks : Z;
  pool_size : Z;
  free_threads : Z;
  utilization_pct : Q;
  is_full : bool
}.

(** Lines 53-64 of [check_background_pool_status]: the status computed from
    the two scalars of the metrics row.  Only the chosen branch of the
    conditional expression is evaluated. *)
Definition pool_status_of (active_tasks pool_size : Z)
  : Py.outcome PoolStatus :=
  let free_threads := (pool_size - active_tasks)%Z in
  Py.and_then
    (if (pool_size >? 0)%Z
     then Py.and_then (Py.truediv active_tasks pool_size)
                      (fun q => Py.Returned (Py.fmul q 100))
     else Py.Returned 0)
    (fun utilization_pct =>
       Py.Returned
         {| active_tasks := active_tasks;
            pool_size := pool_size;
            free_threads := free_threads;
            utilization_pct := Py.round2 utilization_pct;
            is_full := (free_threads <=? 0)%Z |}).

(** A row of [system.merges] as selected by [check_merge_operations]:
    database, table, elapsed, progress, merge_type. *)
Definition MergeRow : Type := (string * string * Q * Q * string)%type.

(** What a run does that can be observed from outside, in order: the calls
    made on the client [ch], the prompts, and the prints that carry data
    (banners and fixed informational lines are left out). *)
Inductive event : Type :=
| PoolQuery                               (* ch.query(<pool metrics>) *)
| MergesQuery (table : option string)     (* ch.query(<system.merges>) *)
| Command (sql : string)                  (* ch.command(sql) *)
| Input (prompt : string)                 (* input(prompt) *)
| ShowPoolStatus (st : PoolStatus)        (* print_pool_status(st) *)
| ShowMerges (rows : list MergeRow)       (* the merge listing *)
| ShowNoMerges                            (* "No active merge operations." *)
| ShowCompleted (elapsed : Q)             (* "OPTIMIZE completed successfully in ..." *)
| ShowFailed (elapsed : Q) (reason : string) (* "OPTIMIZE failed after ..." / "Error: ..." *)
| ShowCancelled.                          (* "Operation cancelled." *)

(** Number of pool polls among the events of a run. *)
Definition polls (evs : list event) : nat :=
  List.length
    (filter (fun e => match e with PoolQuery => true | _ => false end) evs).

(** Number of times the command [sql] was sent among the events of a run. *)
Definition commands_sent (sql : string) (evs : list event) : nat :=
  List.length
    (filter (fun e => match e with
                      | Command s => String.eqb s sql
                      | _ => false
                      end) evs).

Section Run.

(** The ClickHouse server behind the client, an external collaborator: its
    state is abstract and each client call is a transition that returns or
    raises. *)
Variable Server : Type.

Record Client : Type := mkClient {
  (* the two scalars (active_tasks, pool_size) of the metrics query *)
  query_pool : Server -> Py.outcome (Z * Z) * Server;
  (* the rows of system.merges, filtered by table when one is given *)
  query_merges : option string -> Server -> Py.outcome (list MergeRow) * Server;
  (* ch.command(sql) *)
  command : string -> Server -> Py.outcome unit * Server
}.

(** Everything a run reads or changes. *)
Record World : Type := mkWorld {
  server : Server;
  clock : Py.Clock;
  stdin : list string        (* the lines still to be typed at the prompts *)
}.

(** A computation: from a world to an outcome, the next world and the
    events it produced. *)
Definition M (A : Type) : Type := World -> Py.outcome A * World * list event.

Definition ret {A} (a : A) : M A := fun w => (Py.Returned a, w, []).

Definition bind {A B} (m : M A) (f : A -> M B) : M B :=
  fun w =>
    match m w with
    | (Py.Returned a, w1, e1) =>
        match f a w1 with
        | (o, w2, e2) => (o, w2, e1 ++ e2)
        end
    | (Py.Raised x, w1, e1) => (Py.Raised x, w1, e1)
    end.

(** [try: body except Exception as e: handler(str(e))] *)
Definition try_except {A} (body : M A) (handler : string -> M A) : M A :=
  fun w =>
    match body w with
    | (Py.Raised (Py.Exn msg), w1, e1) =>
        match handler msg w1 with
        | (o, w2, e2) => (o, w2, e1 ++ e2)
        end
    | r => r
    end.

Definition emit (e : event) : M unit := fun w => (Py.Returned tt, w, [e]).

(** [time.time()] *)
Definition time : M Q :=
  fun w =>
    let (t, c) := Py.sample (clock w) in
    (Py.Returned t, {| server := server w; clock := c; stdin := stdin w |}, []).

(** [input(prompt)]: the next typed line; [EOFError] when there is none. *)
Definition input (prompt : string) : M string :=
  fun w =>
    match stdin w with
    | line :: rest =>
        (Py.Returned line,
         {| server := server w; clock := clock w; stdin := rest |},
         [Input prompt])
    | [] => (Py.Raised (Py.Exn "EOFError"), w, [Input prompt])
    end.

(** A step that touches nothing but may raise. *)
Definition lift {A} (o : Py.outcome A) : M A := fun w => (o, w, []).

(** A call on the client: the event, then the server's transition. *)
Definition call {A} (e : event)
    (f : Server -> Py.outcome A * Server) : M A :=
  fun w =>
    let (o, s) := f (server w) in
    (o, {| server := s; clock := clock w; stdin := stdin w |}, [e]).

End Run.

Arguments ret {Server A} a.
Arguments emit {Server} e.
Arguments time {Server}.
Arguments input {Server} prompt.
Arguments lift {Server A} o.

Declare Scope py_scope.
Delimit Scope py_scope with py.
Notation "x <- m ;; k" := (bind m (fun x => k))
  (at level 61, m at next level, right associativity) : py_scope.
Notation "m ;; k" := (bind m (fun _ => k))
  (at level 61, right associativity) : py_scope.

Section Script.

Variable Server : Type.

(** [str.strip] and [str.lower], which [main] applies to the typed lines.
    They act on every Unicode whitespace and cased letter; nothing but
    their being functions on strings is used. *)
Variables strip lower : string -> string.

Local Open Scope py_scope.
Local Open Scope string_scope.

(** [check_background_pool_status(ch)] *)
Definition check_background_pool_status (ch : Client Server)
  : M Server PoolStatus :=
  row <- call PoolQuery (query_pool ch) ;;
  lift (pool_status_of (fst row) (snd row)).

(** [print_pool_status(status)] *)
Definition print_pool_status (status : PoolStatus) : M Server unit :=
  emit (ShowPoolStatus status).

(** [check_merge_operations(ch, table_name)] *)
Definition check_merge_operations (ch : Client Server)
    (table_name : option string) : M Server unit :=
  rows <- (if Py.truthy table_name
           then call (MergesQuery table_name) (query_merges ch table_name)
           else call (MergesQuery None) (query_merges ch None)) ;;
  match rows with
  | _ :: _ => emit (ShowMerges rows)
  | [] => emit ShowNoMerges
  end.

(** The text built at lines 156-160. *)
Definition optimize_query (table_name : option string)
    (final cleanup : bool) : string :=
  let q := "OPTIMIZE TABLE " ++ Py.str_of_opt table_name in
  let q := if final then q ++ " FINAL" else q in
  if cleanup then q ++ " CLEANUP" else q.

(** [optimize_table_sync(ch, table_name, final, cleanup)] *)
Definition optimize_table_sync (ch : Client Server)
    (table_name : option string) (final cleanup : bool) : M Server bool :=
  status <- check_background_pool_status ch ;;
  print_pool_status status ;;
  call (Command "SET alter_sync = 1") (command ch "SET alter_sync = 1") ;;
  let optimize_query := optimize_query table_name final cleanup in
  start_time <- time ;;
  try_except
    (call (Command optimize_query) (command ch optimize_query) ;;
     t <- time ;;
     let elapsed := t - start_time in
     emit (ShowCompleted elapsed) ;;
     status_after <- check_background_pool_status ch ;;
     print_pool_status status_after ;;
     ret true)
    (fun e =>
     t <- time ;;
     let elapsed := t - start_time in
     emit (ShowFailed elapsed e) ;;
     ret false).

(** The defaults of the signature: [final=True, cleanup=False]. *)
Definition default_final : bool := true.
Definition default_cleanup : bool := false.

Definition prompt_final : string :=
  String (ascii_of_nat 10)
    "   Proceed with OPTIMIZE TABLE ... FINAL? (yes/no): ".
Definition prompt_cleanup : string :=
  "   Proceed with OPTIMIZE TABLE ... FINAL CLEANUP? (yes/no): ".

(** Lines 212-221 of [main]: the two prompts and what follows them. *)
Definition proceed (ch : Client Server) (TABLE : option string)
  : M Server unit :=
  line <- input prompt_final ;;
  let response := lower (strip line) in
  if Py.str_in response ["yes"; "y"] then
    optimize_table_sync ch TABLE true false ;;
    ret tt
  else
    line <- input prompt_cleanup ;;
    let cleanup_response := lower (strip line) in
    if Py.str_in cleanup_response ["yes"; "y"] then
      optimize_table_sync ch TABLE true true ;;
      ret tt
    else
      emit ShowCancelled.

(** [main()], with [ch] and the module constant [TABLE] as arguments. *)
Definition main (ch : Client Server) (TABLE : option string)
  : M Server unit :=
  status <- check_background_pool_status ch ;;
  print_pool_status status ;;
  check_merge_operations ch TABLE ;;
  proceed ch TABLE.

End Script.

End OptimizeTable.

(** ** The table shared by ingest_chunks.py and query_knn.py *)

(** One row, in the column order of the insert:
    doc_id, chunk_id, content, embedding, source, tenant_id, ts. *)
Record VectorRecord : Type := mkVectorRecord {
  doc_id : Z;
  chunk_id : Z;
  content : string;
  embedding : list Q;
  source : string;
  tenant_id : Z;
  ts : Q
}.

(** The table as the server scans it: the rows in the server's order. *)
Definition Table : Type := list VectorRecord.

(** ** ingest_chunks.py *)

Module IngestChunks.

Section Script.

(** [model.encode], the embedding model (external). *)
Variable encode : list string -> list (list Q).

(** The module constants [TENANT_ID] and [SOURCE]. *)
Variable TENANT_ID : Z.
Variable SOURCE : string.

(** Lines 67-77: the loop over [enumerate(zip(texts, embeddings))], from
    index [i] on; [datetime.now()] is evaluated in the loop body. *)
Fixpoint prepare_rows (i : nat) (pairs : list (string * list Q))
    (c : Py.Clock) : list VectorRecord * Py.Clock :=
  match pairs with
  | [] => ([], c)
  | (text, emb) :: rest =>
      let (now, c1) := Py.sample c in
      let row := {| doc_id := 1;
                    chunk_id := Z.of_nat i;
                    content := text;
                    embedding := emb;
                    source := SOURCE;
                    tenant_id := TENANT_ID;
                    ts := now |} in
      let (rows, c2) := prepare_rows (S i) rest c1 in
      (row :: rows, c2)
  end.

(** [ch.insert(TABLE, rows, column_names=[...])]: the rows are appended. *)
Definition insert (table : Table) (rows : list VectorRecord) : Table :=
  table ++ rows.

(** The rows the script builds for [texts]. *)
Definition rows_of (texts : list string) (c : Py.Clock)
  : list VectorRecord * Py.Clock :=
  let embeddings := encode texts in
  prepare_rows 0 (combine texts embeddings) c.

(** Lines 45 and 67-94: embed, build the rows, one insert.  Returns the
    rows handed to the insert, the table after it and the clock.  The
    prints of lines 47-48 and 96, and the error of line 48, are in
    [IngestScript.run]. *)
Definition ingest (texts : list string) (table : Table) (c : Py.Clock)
  : list VectorRecord * Table * Py.Clock :=
  let (rows, c') := rows_of texts c in
  (rows, insert table rows, c').

End Script.

(** The constants of the script. *)
Definition TENANT_ID : Z := 88.
Definition SOURCE : string := "meetup_workshop".
Definition texts : list string :=
  [ "ClickHouse is a column-oriented database designed for analytics.";
    "Vector search enables semantic similarity instead of keyword matching.";
    "LLMs require external context to avoid hallucination.";
    "ClickHouse can combine metadata filtering with vector search." ]%string.

End IngestChunks.

(** ** query_knn.py *)

Module QueryKnn.

(** Line 58 writes [SOURCE] between two quotes as it is.  The server reads
    the same string back when it holds no quote and no backslash; another
    [SOURCE] ends the literal early and makes the text another statement. *)
Fixpoint sql_plain (s : string) : bool :=
  match s with
  | EmptyString => true
  | String c s' =>
      negb (Ascii.eqb c (ascii_of_nat 39))
      && negb (Ascii.eqb c (ascii_of_nat 92))
      && sql_plain s'
  end.

(** The statement built by the f-string of lines 51-61, by its holes: the
    statement the server reads when [SOURCE] is [sql_plain].  What the
    script does with another [SOURCE] is not modelled; the properties below
    that speak of the answer to the script assume [sql_plain SOURCE]. *)
Record KnnSelect : Type := mkKnnSelect {
  q_vector : list Q;       (* {query_vector_sql} *)
  q_tenant : Z;            (* tenant_id = {TENANT_ID} *)
  q_source : string;       (* source = '{SOURCE}' *)
  q_limit : nat            (* LIMIT {TOP_K} *)
}.

Section Server.

(** [cosineDistance] of the server (external), taken as a function of the
    two vectors; the server computes it on vectors of one length only (see
    [ch_query]). *)
Variable cosineDistance : list Q -> list Q -> Q.

(** WHERE tenant_id = ... AND source = '...' *)
Definition in_scope (s : KnnSelect) (r : VectorRecord) : bool :=
  (tenant_id r =? q_tenant s)%Z && String.eqb (source r) (q_source s).

(** cosineDistance(embedding, <vector>) AS score *)
Definition score (s : KnnSelect) (r : VectorRecord) : Q :=
  cosineDistance (embedding r) (q_vector s).

(** ORDER BY score ASC: the rows sorted on [score] alone.  Rows of equal
    score stay in the order they come in, so the result over every scan
    order of the table covers every order the server may pick for ties. *)
Fixpoint insert_by_score (x : VectorRecord * Q) (l : list (VectorRecord * Q))
  : list (VectorRecord * Q) :=
  match l with
  | [] => [x]
  | y :: l' =>
      if Qle_bool (snd x) (snd y) then x :: l
      else y :: insert_by_score x l'
  end.

Definition order_by_score (l : list (VectorRecord * Q))
  : list (VectorRecord * Q) :=
  fold_right insert_by_score [] l.

(** The rows the statement selects, each with its score, in result order. *)
Definition select_rows (s : KnnSelect) (table : Table)
  : list (VectorRecord * Q) :=
  firstn (q_limit s)
    (order_by_score
       (map (fun r => (r, score s r)) (filter (in_scope s) table))).

(** The [result_rows] of the statement: the columns [content, score]. *)
Definition query (s : KnnSelect) (table : Table) : list (string * Q) :=
  map (fun x => (content (fst x), snd x)) (select_rows s table).

(** The server computes the distance for every row in scope, and rejects
    the statement (Code 190, arrays of different sizes) when one of them
    holds an embedding of another length than the query vector. *)
Definition same_dimension (s : KnnSelect) (r : VectorRecord) : bool :=
  (List.length (embedding r) =? List.length (q_vector s))%nat.

Definition sizes_match (s : KnnSelect) (table : Table) : bool :=
  forallb (same_dimension s) (filter (in_scope s) table).

(** [ch.query(sql)] on a server that is up: the rows, or the error of the
    server, which the client raises as [DatabaseError].  (With [LIMIT 0]
    the server may answer without computing any distance; what is stated
    below of a rejected statement is stated for a positive limit.) *)
Definition ch_query (s : KnnSelect) (table : Table)
  : Py.outcome (list (string * Q)) :=
  if sizes_match s table then Py.Returned (query s table)
  else Py.Raised (Py.Exn "DatabaseError").

End Server.

Section Script.

Variable encode : list string -> list (list Q).
Variable cosineDistance : list Q -> list Q -> Q.

(** The module constants. *)
Variable TENANT_ID : Z.
Variable SOURCE : string.
Variable TOP_K : nat.
Variable QUESTION : string.

(** The script up to [result]: the statements sent to the server and what
    the run ends with.  [model.encode([QUESTION])[0]] raises [IndexError]
    on an empty answer of the model, before anything is sent; an error of
    the server is not handled. *)
Definition knn_query (table : Table)
  : list KnnSelect * Py.outcome (list (string * Q)) :=
  match encode [QUESTION] with
  | [] => ([], Py.Raised (Py.Exn "IndexError"))
  | query_embedding :: _ =>
      let sql := {| q_vector := query_embedding;
                    q_tenant := TENANT_ID;
                    q_source := SOURCE;
                    q_limit := TOP_K |} in
      ([sql], ch_query cosineDistance sql table)
  end.

End Script.

(** The constants of the script. *)
Definition TENANT_ID : Z := 88.
Definition SOURCE : string := "meetup_workshop".
Definition TOP_K : nat := 5.
Definition QUESTION : string := "How does ClickHouse support vector search?".

End QueryKnn.

(** ** Predicates on runs of optimize_table.py *)

Module RunProps.

Import OptimizeTable.
Local Open Scope string_scope.

Section Preds.

Variable Server : Type.

(** [keeps_stdin m]: a run of [m] consumes no typed line. *)
Definition keeps_stdin {A} (m : M Server A) : Prop :=
  forall w, stdin (snd (fst (m w))) = stdin w.

(** [emits Q m]: a run of [m] produces only events satisfying [Q]. *)
Definition emits {A} (Q : event -> Prop) (m : M Server A) : Prop :=
  forall w, Forall Q (snd (m w)).

End Preds.

Section Confirmation.

(** [str.strip] and [str.lower], as in [main]. *)
Variables strip lower : string -> string.

(** The typed lines confirm the CLEANUP run: FINAL was declined at the first
    prompt and CLEANUP accepted at the second. *)
Definition cleanup_confirmed (typed : list string) : Prop :=
  exists line1 line2 rest,
    typed = line1 :: line2 :: rest
    /\ Py.str_in (lower (strip line1)) ["yes"; "y"] = false
    /\ Py.str_in (lower (strip line2)) ["yes"; "y"] = true.

(** An event that is not a command. *)
Definition silent (e : event) : Prop := forall sql, e <> Command sql.

(** An event that, if a command, is one of the two a run with these flags
    sends. *)
Definition sync_event (table_name : option string) (final cleanup : bool)
    (e : event) : Prop :=
  forall sql, e = Command sql ->
    sql = "SET alter_sync = 1"
    \/ sql = optimize_query table_name final cleanup.

(** An event that, if an OPTIMIZE command with CLEANUP on [TABLE], was
    confirmed by the lines [typed]. *)
Definition gated (TABLE : option string) (typed : list string)
    (e : event) : Prop :=
  forall final, e = Command (optimize_query TABLE final true) ->
    cleanup_confirmed typed.

End Confirmation.

End RunProps.

(** ** Predicates on the table and on query results *)

Module TableProps.

Import QueryKnn.

(** Result rows compared on their score. *)
Definition le_score (a b : VectorRecord * Q) : Prop := (snd a <= snd b)%Q.

(** No two different rows of [rows] have equal scores for [s]. *)
Definition no_ties (cosineDistance : list Q -> list Q -> Q)
    (s : KnnSelect) (rows : list VectorRecord) : Prop :=
  forall a b, In a rows -> In b rows ->
    (score cosineDistance s a == score cosineDistance s b)%Q -> a = b.

(** Number of rows of the table inside the scope of [s]. *)
Definition in_scope_count (s : KnnSelect) (table : Table) : nat :=
  List.length (filter (in_scope s) table).

(** [answer] is an answer the server may give to [s] over the rows of
    [table]: the first [q_limit s] of the rows in scope, each with its
    score, in an order in which the scores do not decrease. *)
Definition valid_answer (cosineDistance : list Q -> list Q -> Q)
    (s : KnnSelect) (table : Table) (answer : list (VectorRecord * Q))
  : Prop :=
  exists sorted,
    Permutation sorted
      (map (fun r => (r, score cosineDistance s r)) (filter (in_scope s) table))
    /\ StronglySorted le_score sorted
    /\ answer = firstn (q_limit s) sorted.

(** Every row stored under the tenant and the source holds an embedding of
    [n] components. *)
Definition dimension_in_scope (tenant : Z) (src : string) (n : nat)
    (table : Table) : Prop :=
  forall r, In r table -> tenant_id r = tenant -> source r = src ->
    List.length (embedding r) = n.

End TableProps.

(** ** Shapes of the runs of [optimize_table_sync] *)

Module RunShapes.

Import OptimizeTable.
Local Open Scope string_scope.

(** The head every run shares once the first poll has answered. *)
Definition sync_head (st : PoolStatus) : list event :=
  [PoolQuery; ShowPoolStatus st; Command "SET alter_sync = 1"].

(** The ways a run of [optimize_table_sync] sending the text [q] can go: how
    it ends and what it has done by then. *)
Inductive sync_shape (q : string) : Py.outcome bool -> list event -> Prop :=
| first_poll_raised x :
    sync_shape q (Py.Raised x) [PoolQuery]
| set_raised st x :
    sync_shape q (Py.Raised x) (sync_head st)
| optimize_failed st elapsed msg :
    sync_shape q (Py.Returned false)
      (sync_head st ++ [Command q; ShowFailed elapsed msg])
| optimize_interrupted st msg :
    sync_shape q (Py.Raised (Py.BaseExn msg))
      (sync_head st ++ [Command q])
| second_poll_failed st elapsed elapsed' msg :
    sync_shape q (Py.Returned false)
      (sync_head st ++ [Command q; ShowCompleted elapsed; PoolQuery;
                        ShowFailed elapsed' msg])
| second_poll_interrupted st elapsed msg :
    sync_shape q (Py.Raised (Py.BaseExn msg))
      (sync_head st ++ [Command q; ShowCompleted elapsed; PoolQuery])
| completed st elapsed st' :
    sync_shape q (Py.Returned true)
      (sync_head st ++ [Command q; ShowCompleted elapsed; PoolQuery;
                        ShowPoolStatus st']).

(** An event that is not a prompt. *)
Definition no_prompt (e : event) : Prop := forall prompt, e <> Input prompt.

(** Neither a command nor a prompt. *)
Definition quiet (e : event) : Prop :=
  RunProps.silent e /\ no_prompt e.

(** The table filter [check_merge_operations] queries with, and what it
    shows for the rows it gets. *)
Definition merges_filter (table_name : option string) : option string :=
  if Py.truthy table_name then table_name else None.

Definition merges_display (rows : list MergeRow) : event :=
  match rows with
  | [] => ShowNoMerges
  | _ :: _ => ShowMerges rows
  end.

(** What [main] has done when it reaches the first prompt. *)
Definition main_head (st : PoolStatus) (table_name : option string)
    (rows : list MergeRow) : list event :=
  [PoolQuery; ShowPoolStatus st; MergesQuery (merges_filter table_name);
   merges_display rows].

Section Answers.

(** [str.strip] and [str.lower], as in [main]. *)
Variables strip lower : string -> string.

(** A typed line counts as a yes: the test of both prompts of [main]. *)
Definition accepted (line : string) : bool :=
  Py.str_in (lower (strip line)) ["yes"; "y"].

(** One of the first two typed lines is a yes, the second counting only
    when the first is not. *)
Definition some_answer_accepted (typed : list string) : Prop :=
  exists line1 rest,
    typed = line1 :: rest
    /\ (accepted line1 = true
        \/ exists line2 rest', rest = line2 :: rest' /\ accepted line2 = true).

(** An event allowed once FINAL was accepted at the first prompt: not the
    CLEANUP prompt, and no command but those of the FINAL run. *)
Definition final_only (TABLE : option string) (typed : list string)
    (e : event) : Prop :=
  forall line1 rest, typed = line1 :: rest -> accepted line1 = true ->
    e <> Input prompt_cleanup /\ RunProps.sync_event TABLE true false e.

(** An event that, if a command, was preceded by a yes among the lines
    [typed]. *)
Definition answered (typed : list string) (e : event) : Prop :=
  forall sql, e = Command sql -> some_answer_accepted typed.

End Answers.

End RunShapes.

(** ** Concrete servers, clocks and tables used in the examples *)

Module Fixtures.

Import OptimizeTable.
Local Open Scope string_scope.

(** A clock that advances by 3 s at every sampling. *)
Definition clock0 : Py.Clock :=
  {| Py.reading := fun k => inject_Z (3 * Z.of_nat k); Py.ticks := 0 |}.

(** A server with 12 of 16 pool threads busy on which every OPTIMIZE fails. *)
Definition failing_client : Client unit :=
  {| query_pool := fun s => (Py.Returned (12%Z, 16%Z), s);
     query_merges := fun _ s => (Py.Returned [], s);
     command := fun sql s =>
       if String.eqb sql "SET alter_sync = 1" then (Py.Returned tt, s)
       else (Py.Raised (Py.Exn "Code: 159. Timeout exceeded"), s) |}.

(** A server that counts the commands it has run; all of them succeed. *)
Definition healthy_client : Client nat :=
  {| query_pool := fun s => (Py.Returned (Z.of_nat s, 16%Z), s);
     query_merges := fun _ s => (Py.Returned [], s);
     command := fun _ s => (Py.Returned tt, S s) |}.

Definition world0 {Server} (s : Server) (typed : list string) : World Server :=
  {| server := s; clock := clock0; stdin := typed |}.

(** Stand-ins for [str.strip] and [str.lower] in the examples, whose typed
    lines are ASCII text: on such text the two methods remove the
    whitespace below and turn [A-Z] into [a-z]. *)
Definition is_space (c : ascii) : bool :=
  let n := nat_of_ascii c in
  ((9 <=? n) && (n <=? 13) || (28 <=? n) && (n <=? 32))%nat.

Fixpoint lstrip (s : string) : string :=
  match s with
  | String c s' => if is_space c then lstrip s' else s
  | EmptyString => EmptyString
  end.

Fixpoint rstrip (s : string) : string :=
  match s with
  | String c s' =>
      match rstrip s' with
      | EmptyString => if is_space c then EmptyString else String c EmptyString
      | t => String c t
      end
  | EmptyString => EmptyString
  end.

Definition ascii_strip (s : string) : string := rstrip (lstrip s).

Definition lower_ascii (c : ascii) : ascii :=
  let n := nat_of_ascii c in
  if ((65 <=? n) && (n <=? 90))%nat then ascii_of_nat (n + 32) else c.

Fixpoint ascii_lower (s : string) : string :=
  match s with
  | String c s' => String (lower_ascii c) (ascii_lower s')
  | EmptyString => EmptyString
  end.

(** A stand-in for the server's distance: [1 - a.b], the cosine distance of
    two vectors of length one. *)
Definition dot (a b : list Q) : Q :=
  fold_right Qplus 0 (map (fun p => fst p * snd p) (combine a b)).
Definition unit_distance (a b : list Q) : Q := 1 - dot a b.

(** A stand-in for the embedding model: one axis per parity of the text
    length. *)
Definition toy_embed (text : string) : list Q :=
  if Nat.even (String.length text) then [1; 0] else [0; 1].
Definition toy_encode (texts : list string) : list (list Q) :=
  map toy_embed texts.


(** Two chunks of one document with the same embedding, under tenant 7 and
    source "demo", and one row of another tenant with an empty source. *)
Definition row_a : VectorRecord :=
  {| doc_id := 1; chunk_id := 0; content := "alpha"; embedding := [1; 0];
     source := "demo"; tenant_id := 7; ts := 0 |}.
Definition row_b : VectorRecord :=
  {| doc_id := 1; chunk_id := 1; content := "beta"; embedding := [1; 0];
     source := "demo"; tenant_id := 7; ts := 0 |}.
Definition row_c : VectorRecord :=
  {| doc_id := 2; chunk_id := 0; content := "gamma"; embedding := [0; 1];
     source := ""; tenant_id := 8; ts := 3 |}.

Definition table_ab : Table := [row_a; row_b; row_c].
Definition table_ba : Table := [row_b; row_a; row_c].

(** A third chunk of the document, along the other axis. *)
Definition row_d : VectorRecord :=
  {| doc_id := 1; chunk_id := 2; content := "delta"; embedding := [0; 1];
     source := "demo"; tenant_id := 7; ts := 0 |}.

Definition table_da : Table := [row_c; row_d; row_a].



End Fixtures.

(** ** More servers for the examples *)

Module Servers.

Import OptimizeTable.
Local Open Scope string_scope.

(** A server that stops answering polls once two commands have run. *)
Definition flaky_client : Client nat :=
  {| query_pool := fun s =>
       if (s <? 2)%nat then (Py.Returned (12%Z, 16%Z), s)
       else (Py.Raised (Py.Exn "Connection reset"), s);
     query_merges := fun _ s => (Py.Returned [], s);
     command := fun _ s => (Py.Returned tt, S s) |}.

(** A server that cannot be reached. *)
Definition down_client : Client unit :=
  {| query_pool := fun s => (Py.Raised (Py.Exn "Connection refused"), s);
     query_merges := fun _ s => (Py.Raised (Py.Exn "Connection refused"), s);
     command := fun _ s => (Py.Raised (Py.Exn "Connection refused"), s) |}.

(** A server that answers polls and refuses every command. *)
Definition readonly_client : Client unit :=
  {| query_pool := fun s => (Py.Returned (3%Z, 16%Z), s);
     query_merges := fun _ s => (Py.Returned [], s);
     command := fun _ s => (Py.Raised (Py.Exn "Code: 164. READONLY"), s) |}.

(** A server on which the run is interrupted from the keyboard while the
    OPTIMIZE command is under way. *)
Definition interrupted_client : Client unit :=
  {| query_pool := fun s => (Py.Returned (3%Z, 16%Z), s);
     query_merges := fun _ s => (Py.Returned [], s);
     command := fun sql s =>
       if String.eqb sql "SET alter_sync = 1" then (Py.Returned tt, s)
       else (Py.Raised (Py.BaseExn "KeyboardInterrupt"), s) |}.

(** A server that answers polls but not the merges query. *)
Definition merges_down_client : Client unit :=
  {| query_pool := fun s => (Py.Returned (3%Z, 16%Z), s);
     query_merges := fun _ s =>
       (Py.Raised (Py.Exn "Code: 497. ACCESS_DENIED"), s);
     command := fun _ s => (Py.Returned tt, s) |}.

End Servers.

(** ** ingest_chunks.py, from the embedding to the last print *)

Module IngestScript.

(** What the script prints and sends, in order. *)
Inductive event : Type :=
| Generated (n : nat)                  (* "Generated {len(embeddings)} embeddings" *)
| EmbeddingDimension (d : nat)         (* "Embedding dimension: {len(embeddings[0])}" *)
| Insert (rows : list VectorRecord)    (* ch.insert(TABLE, rows, ...) *)
| Inserted.                            (* "Chunks successfully inserted ..." *)

Section Script.

Variable encode : list string -> list (list Q).
Variable TENANT_ID : Z.
Variable SOURCE : string.

(** Lines 45-96: the embeddings, the two prints about them
    ([embeddings[0]] raises [IndexError] when there is no embedding), the
    rows, the insert, the last print.  Returns what was printed and sent,
    how the run ends, the table and the clock. *)
Definition run (texts : list string) (table : Table) (c : Py.Clock)
  : list event * Py.outcome unit * Table * Py.Clock :=
  let embeddings := encode texts in
  match embeddings with
  | [] => ([Generated 0], Py.Raised (Py.Exn "IndexError"), table, c)
  | first :: _ =>
      let (rows, c') :=
        IngestChunks.prepare_rows TENANT_ID SOURCE 0
          (combine texts embeddings) c in
      ([Generated (List.length embeddings);
        EmbeddingDimension (List.length first);
        Insert rows;
        Inserted],
       Py.Returned tt, IngestChunks.insert table rows, c')
  end.

End Script.

End IngestScript.

(** * Properties *)

(** ** Rounding *)

Module PyFacts.

Local Open Scope Z_scope.

Lemma div_mod_pos (n : Z) (d : positive) :
  n = Zpos d * (n / Zpos d) + n mod Zpos d /\ 0 <= n mod Zpos d < Zpos d.
Proof.
  split.
  - apply Z.div_mod. discriminate.
  - apply Z.mod_pos_bound. reflexivity.
Qed.

(** The rounded integer, by cases on twice the remainder. *)
Lemma round_half_even_cases (n : Z) (d : positive) :
  let z := Py.round_half_even (n # d) in
  (z = n / Zpos d /\ 2 * (n mod Zpos d) <= Zpos d) \/
  (z = n / Zpos d + 1 /\ Zpos d <= 2 * (n mod Zpos d)).
Proof.
  unfold Py.round_half_even; cbn [Qnum Qden].
  destruct (Z.ltb_spec (2 * (n mod Zpos d)) (Zpos d)) as [H | H].
  - left; split; [reflexivity | lia].
  - destruct (Z.ltb_spec (Zpos d) (2 * (n mod Zpos d))) as [H' | H'].
    + right; split; [reflexivity | lia].
    + destruct (Z.even (n / Zpos d)).
      * left; split; [reflexivity | lia].
      * right; split; [reflexivity | lia].
Qed.

(** Rounding moves a value by at most one half. *)
Lemma round_half_even_near (q : Q) :
  (inject_Z (Py.round_half_even q) - (1 # 2) <= q
   /\ q <= inject_Z (Py.round_half_even q) + (1 # 2))%Q.
Proof.
  destruct q as [n d].
  pose proof (round_half_even_cases n d) as C; cbv zeta in C.
  pose proof (div_mod_pos n d) as [E B].
  set (z := Py.round_half_even (n # d)) in *.
  unfold Qle, Qminus, Qplus, Qopp, inject_Z; cbn [Qnum Qden].
  split; destruct C as [[-> C] | [-> C]]; nia.
Qed.

(** Rounding stays between integer bounds of its argument. *)
Lemma round_half_even_bounds (lo hi : Z) (q : Q) :
  (inject_Z lo <= q)%Q -> (q <= inject_Z hi)%Q ->
  lo <= Py.round_half_even q <= hi.
Proof.
  destruct q as [n d].
  unfold Qle, inject_Z; cbn [Qnum Qden]. intros Hlo Hhi.
  pose proof (round_half_even_cases n d) as C; cbv zeta in C.
  pose proof (div_mod_pos n d) as [E B].
  set (z := Py.round_half_even (n # d)) in *.
  destruct C as [[-> C] | [-> C]]; nia.
Qed.

(** The rounded integer, with the side a tie falls on. *)
Lemma round_half_even_sides (n : Z) (d : positive) :
  let z := Py.round_half_even (n # d) in
  (z = n / Zpos d
   /\ (2 * (n mod Zpos d) < Zpos d
       \/ (2 * (n mod Zpos d) = Zpos d /\ Z.even (n / Zpos d) = true)))
  \/ (z = n / Zpos d + 1
      /\ (Zpos d < 2 * (n mod Zpos d)
          \/ (2 * (n mod Zpos d) = Zpos d /\ Z.even (n / Zpos d) = false))).
Proof.
  unfold Py.round_half_even; cbn [Qnum Qden].
  destruct (Z.ltb_spec (2 * (n mod Zpos d)) (Zpos d)) as [H | H].
  - left; split; [reflexivity | now left].
  - destruct (Z.ltb_spec (Zpos d) (2 * (n mod Zpos d))) as [H' | H'].
    + right; split; [reflexivity | now left].
    + destruct (Z.even (n / Zpos d)) eqn:E.
      * left; split; [reflexivity | right; split; [lia | reflexivity]].
      * right; split; [reflexivity | right; split; [lia | reflexivity]].
Qed.

(** Rounding keeps the order. *)
Lemma round_half_even_mono (q q' : Q) :
  (q <= q')%Q -> Py.round_half_even q <= Py.round_half_even q'.
Proof.
  destruct q as [n d], q' as [n' d'].
  unfold Qle; cbn [Qnum Qden]. intros Hle.
  pose proof (round_half_even_sides n d) as C; cbv zeta in C.
  pose proof (round_half_even_sides n' d') as C'; cbv zeta in C'.
  pose proof (PyFacts.div_mod_pos n d) as [E B].
  pose proof (PyFacts.div_mod_pos n' d') as [E' B'].
  set (z := Py.round_half_even (n # d)) in *.
  set (z' := Py.round_half_even (n' # d')) in *.
  set (f := n / Zpos d) in *. set (m := n mod Zpos d) in *.
  set (f' := n' / Zpos d') in *. set (m' := n' mod Zpos d') in *.
  assert (Hf : f <= f').
  { destruct (Z.le_gt_cases f f') as [L | G]; [exact L | exfalso].
    assert (Zpos d * Zpos d' * (f - f') <= m' * Zpos d - m * Zpos d') by nia.
    assert (Zpos d * Zpos d' <= Zpos d * Zpos d' * (f - f')) by nia.
    nia. }
  destruct C as [[-> C] | [-> C]], C' as [[-> C'] | [-> C']]; try lia.
  (* rounded up on the left, down on the right: then [f = f'] is a tie *)
  destruct (Z.eq_dec f f') as [Ef | Nf]; [| lia]. exfalso.
  assert (Hm : m * Zpos d' <= m' * Zpos d) by nia.
  destruct C as [C | [C Ev]], C' as [C' | [C' Ev']]; try nia.
  rewrite Ef in Ev. congruence.
Qed.

End PyFacts.

(** ** binary64 *)

Section Binary64.

Local Open Scope Q_scope.

Lemma pow2_pos e : 0 < Py.pow2 e.
Proof. apply Qpower_0_lt. reflexivity. Qed.

Lemma pow2_le a b : (a <= b)%Z -> Py.pow2 a <= Py.pow2 b.
Proof. intros H. apply Qpower_le_compat_l; [exact H | discriminate]. Qed.

Lemma pow2_lt_inv a b : Py.pow2 a < Py.pow2 b -> (a < b)%Z.
Proof. intros H. apply (Qpower_lt_compat_l_inv _ _ _ H). reflexivity. Qed.

Lemma pow2_add a b : Py.pow2 (a + b) == Py.pow2 a * Py.pow2 b.
Proof. apply Qpower_plus. discriminate. Qed.

(** A power of two with a natural exponent is the integer power. *)
Lemma pow2_nonneg e : (0 <= e)%Z -> Py.pow2 e == inject_Z (2 ^ e).
Proof. intros H. unfold Py.pow2. now rewrite Zpower_Qpower. Qed.

Lemma pow2_sub a b :
  (0 <= a)%Z -> (0 <= b)%Z ->
  Py.pow2 (a - b) == inject_Z (2 ^ a) / inject_Z (2 ^ b).
Proof.
  intros Ha Hb. unfold Py.pow2.
  rewrite Qpower_minus by discriminate.
  now rewrite !Zpower_Qpower.
Qed.

Lemma round_half_even_inject z : Py.round_half_even (inject_Z z) = z.
Proof.
  unfold Py.round_half_even, inject_Z; cbn [Qnum Qden].
  rewrite Z.mod_1_r, Z.div_1_r. reflexivity.
Qed.

(** [ilog2] is the integer part of the binary logarithm. *)
Lemma ilog2_spec q :
  0 < q -> Py.pow2 (Py.ilog2 q) <= q /\ q < Py.pow2 (Py.ilog2 q + 1).
Proof.
  destruct q as [n d]. intros Hq.
  assert (Hn : (0 < n)%Z) by (unfold Qlt in Hq; cbn in Hq; lia).
  unfold Py.ilog2; cbn [Qnum Qden].
  set (ln := Z.log2 n). set (ld := Z.log2 (Zpos d)).
  assert (Hln : (0 <= ln)%Z) by apply Z.log2_nonneg.
  assert (Hld : (0 <= ld)%Z) by apply Z.log2_nonneg.
  destruct (Z.log2_spec n Hn) as [Ln Un]. fold ln in Ln, Un.
  destruct (Z.log2_spec (Zpos d) eq_refl) as [Ld Ud]. fold ld in Ld, Ud.
  assert (P1 : (0 < 2 ^ ld)%Z) by (apply Z.pow_pos_nonneg; lia).
  assert (P2 : (0 < 2 ^ Z.succ ld)%Z) by (apply Z.pow_pos_nonneg; lia).
  assert (Up : n # d < Py.pow2 (ln - ld + 1)).
  { replace (ln - ld + 1)%Z with (Z.succ ln - ld)%Z by lia.
    rewrite pow2_sub by lia.
    apply Qlt_shift_div_l.
    - change 0 with (inject_Z 0). rewrite <- Zlt_Qlt. exact P1.
    - unfold Qlt, Qmult, inject_Z; cbn [Qnum Qden]. nia. }
  assert (Lo : Py.pow2 (ln - ld - 1) <= n # d).
  { replace (ln - ld - 1)%Z with (ln - Z.succ ld)%Z by lia.
    rewrite pow2_sub by lia.
    apply Qle_shift_div_r.
    - change 0 with (inject_Z 0). rewrite <- Zlt_Qlt. exact P2.
    - unfold Qle, Qmult, inject_Z; cbn [Qnum Qden]. nia. }
  destruct (Qle_bool (Py.pow2 (ln - ld)) (n # d)) eqn:E.
  - apply Qle_bool_iff in E. split; assumption.
  - split; [exact Lo |].
    replace (ln - ld - 1 + 1)%Z with (ln - ld)%Z by lia.
    apply Qnot_le_lt. intros H. apply Qle_bool_iff in H. congruence.
Qed.

Lemma ilog2_le q q' : 0 < q -> q <= q' -> (Py.ilog2 q <= Py.ilog2 q')%Z.
Proof.
  intros Hq Hle.
  assert (Hq' : 0 < q') by (eapply Qlt_le_trans; eassumption).
  destruct (ilog2_spec Hq) as [L _], (ilog2_spec Hq') as [_ U].
  assert (H : Py.pow2 (Py.ilog2 q) < Py.pow2 (Py.ilog2 q' + 1)).
  { eapply Qle_lt_trans; [exact L |]. eapply Qle_lt_trans; eassumption. }
  apply pow2_lt_inv in H. lia.
Qed.

(** A value below a power of two that is on the grid rounds below it. *)
Lemma round_positive_below q m :
  0 < q -> q <= Py.pow2 m -> (Py.ulp_exponent q <= m)%Z ->
  Py.round_positive q <= Py.pow2 m.
Proof.
  intros Hq Hle Hu. unfold Py.round_positive.
  set (u := Py.ulp_exponent q) in *.
  assert (E : Py.pow2 m == inject_Z (2 ^ (m - u)) * Py.pow2 u).
  { rewrite <- pow2_nonneg by lia. rewrite <- pow2_add.
    replace (m - u + u)%Z with m by lia. reflexivity. }
  rewrite E. apply Qmult_le_compat_r; [| apply Qlt_le_weak, pow2_pos].
  rewrite <- Zle_Qle.
  rewrite <- (round_half_even_inject (2 ^ (m - u))).
  apply PyFacts.round_half_even_mono.
  apply Qle_shift_div_r; [apply pow2_pos |]. rewrite <- E. exact Hle.
Qed.

Lemma round_positive_above q m :
  0 < q -> Py.pow2 m <= q -> (Py.ulp_exponent q <= m)%Z ->
  Py.pow2 m <= Py.round_positive q.
Proof.
  intros Hq Hle Hu. unfold Py.round_positive.
  set (u := Py.ulp_exponent q) in *.
  assert (E : Py.pow2 m == inject_Z (2 ^ (m - u)) * Py.pow2 u).
  { rewrite <- pow2_nonneg by lia. rewrite <- pow2_add.
    replace (m - u + u)%Z with m by lia. reflexivity. }
  rewrite E. apply Qmult_le_compat_r; [| apply Qlt_le_weak, pow2_pos].
  rewrite <- Zle_Qle.
  rewrite <- (round_half_even_inject (2 ^ (m - u))) at 1.
  apply PyFacts.round_half_even_mono.
  apply Qle_shift_div_l; [apply pow2_pos |]. rewrite <- E. exact Hle.
Qed.

Lemma round_positive_nonneg q : 0 < q -> 0 <= Py.round_positive q.
Proof.
  intros Hq. unfold Py.round_positive.
  apply Qmult_le_0_compat; [| apply Qlt_le_weak, pow2_pos].
  change 0 with (inject_Z 0). rewrite <- Zle_Qle.
  rewrite <- (round_half_even_inject 0).
  apply PyFacts.round_half_even_mono.
  apply Qle_shift_div_l; [apply pow2_pos |].
  rewrite Qmult_0_l. apply Qlt_le_weak, Hq.
Qed.

(** Rounding to binary64 keeps the order of positive values. *)
Lemma round_positive_mono q q' :
  0 < q -> q <= q' -> Py.round_positive q <= Py.round_positive q'.
Proof.
  intros Hq Hle.
  assert (Hq' : 0 < q') by (eapply Qlt_le_trans; eassumption).
  pose proof (ilog2_le Hq Hle) as Hk.
  destruct (Z.eq_dec (Py.ulp_exponent q) (Py.ulp_exponent q')) as [Eu | Nu].
  - unfold Py.round_positive. rewrite <- Eu.
    apply Qmult_le_compat_r; [| apply Qlt_le_weak, pow2_pos].
    rewrite <- Zle_Qle. apply PyFacts.round_half_even_mono.
    apply Qmult_le_compat_r; [exact Hle |].
    apply Qlt_le_weak, Qinv_lt_0_compat, pow2_pos.
  - destruct (ilog2_spec Hq) as [_ U], (ilog2_spec Hq') as [L' _].
    unfold Py.ulp_exponent in Nu.
    apply Qle_trans with (Py.pow2 (Py.ilog2 q')).
    + apply round_positive_below; [exact Hq | | unfold Py.ulp_exponent; lia].
      apply Qlt_le_weak. eapply Qlt_le_trans; [exact U |].
      apply pow2_le. lia.
    + apply round_positive_above;
        [exact Hq' | exact L' | unfold Py.ulp_exponent; lia].
Qed.

(** Rounding to binary64 keeps the order. *)
Lemma binary64_mono q q' : q <= q' -> Py.binary64 q <= Py.binary64 q'.
Proof.
  intros Hle. unfold Py.binary64. rewrite !Qred_correct.
  destruct q as [n d], q' as [n' d']. cbn [Qnum].
  destruct n as [| n | n], n' as [| n' | n'];
    try (exfalso; unfold Qle in Hle; cbn in Hle; lia).
  - apply Qle_refl.
  - apply round_positive_nonneg. reflexivity.
  - apply round_positive_mono; [reflexivity | exact Hle].
  - apply (Qopp_le_compat 0). apply round_positive_nonneg. reflexivity.
  - apply Qle_trans with 0.
    + apply (Qopp_le_compat 0). apply round_positive_nonneg. reflexivity.
    + apply round_positive_nonneg. reflexivity.
  - apply Qopp_le_compat. apply round_positive_mono; [reflexivity |].
    apply Qopp_le_compat in Hle. exact Hle.
Qed.

(** Below [2^(k+1)], in the normal range, rounding moves a positive value
    by at most [2^(k-53)]. *)
Lemma round_positive_near q k :
  0 < q -> q < Py.pow2 (k + 1) -> (-1074 <= k - 52)%Z ->
  q - Py.pow2 (k - 53) <= Py.round_positive q
  /\ Py.round_positive q <= q + Py.pow2 (k - 53).
Proof.
  intros Hq Hlt Hk.
  destruct (ilog2_spec Hq) as [L _].
  assert (Hi : (Py.ilog2 q <= k)%Z).
  { assert (H : Py.pow2 (Py.ilog2 q) < Py.pow2 (k + 1))
      by (eapply Qle_lt_trans; eassumption).
    apply pow2_lt_inv in H. lia. }
  unfold Py.round_positive.
  set (u := Py.ulp_exponent q).
  assert (Hu : (u <= k - 52)%Z) by (unfold u, Py.ulp_exponent; lia).
  pose proof (pow2_pos u) as Pu.
  destruct (PyFacts.round_half_even_near (q / Py.pow2 u)) as [N1 N2].
  set (z := inject_Z (Py.round_half_even (q / Py.pow2 u))) in *.
  assert (Eq : q == q / Py.pow2 u * Py.pow2 u).
  { field. intros H. rewrite H in Pu. discriminate Pu. }
  assert (Half : Py.pow2 u * (1 # 2) <= Py.pow2 (k - 53)).
  { replace u with (u - 1 + 1)%Z at 1 by lia. rewrite pow2_add.
    change (Py.pow2 1) with 2. 
    setoid_replace (Py.pow2 (u - 1) * 2 * (1 # 2)) with (Py.pow2 (u - 1))
      by ring.
    apply pow2_le. lia. }
  assert (A : (z - (1 # 2)) * Py.pow2 u <= q).
  { rewrite Eq. apply Qmult_le_compat_r; [exact N1 | lra]. }
  assert (B : q <= (z + (1 # 2)) * Py.pow2 u).
  { rewrite Eq. apply Qmult_le_compat_r; [exact N2 | lra]. }
  split; nra.
Qed.

End Binary64.

Section FloatFacts.

Local Open Scope Q_scope.

Lemma fmul_mono_l x x' y :
  0 <= y -> x <= x' -> Py.fmul x y <= Py.fmul x' y.
Proof.
  intros Hy Hx. unfold Py.fmul. apply binary64_mono.
  apply Qmult_le_compat_r; assumption.
Qed.

(** [round(x, 2)] keeps the order. *)
Lemma round2_mono x y : x <= y -> Py.round2 x <= Py.round2 y.
Proof.
  intros H. unfold Py.round2. apply binary64_mono.
  apply Qmult_le_compat_r; [| discriminate].
  rewrite <- Zle_Qle. apply PyFacts.round_half_even_mono.
  apply Qmult_le_compat_r; [exact H | discriminate].
Qed.

(** The numbers the pool status is compared with are floats. *)
Lemma binary64_0 : Py.binary64 0 = 0.
Proof. reflexivity. Qed.

Lemma binary64_1 : Py.binary64 1 = 1.
Proof. vm_compute. reflexivity. Qed.

Lemma fmul_0_100 : Py.fmul 0 100 = 0.
Proof. vm_compute. reflexivity. Qed.

Lemma fmul_1_100 : Py.fmul 1 100 = 100.
Proof. vm_compute. reflexivity. Qed.

Lemma round2_0 : Py.round2 0 = 0.
Proof. vm_compute. reflexivity. Qed.

Lemma round2_100 : Py.round2 100 = 100.
Proof. vm_compute. reflexivity. Qed.

End FloatFacts.

(** ** Pool status *)

Import OptimizeTable RunProps.

(** The utilisation the code computes for a positive pool size:
    [round(a / p * 100, 2)], each step in binary64. *)
Lemma pool_status_of_pos (a p : Z) :
  (0 < p)%Z ->
  pool_status_of a p =
  Py.Returned
    (mkPoolStatus a p (p - a)
       (Py.round2 (Py.fmul (Py.binary64 (inject_Z a / inject_Z p)) 100))
       (p - a <=? 0)%Z).
Proof.
  intros Hp. unfold pool_status_of, Py.truediv.
  destruct (Z.gtb_spec p 0) as [_ | H]; [| lia].
  destruct (Z.eqb_spec p 0) as [H | _]; [lia |].
  reflexivity.
Qed.

(** Without a positive pool size no division is attempted. *)
Lemma pool_status_of_nonpos (a p : Z) :
  (p <= 0)%Z ->
  pool_status_of a p =
  Py.Returned (mkPoolStatus a p (p - a) 0 (p - a <=? 0)%Z).
Proof.
  intros Hp. unfold pool_status_of.
  destruct (Z.gtb_spec p 0) as [H | _]; [lia |].
  cbn [Py.and_then]. rewrite round2_0. reflexivity.
Qed.

Lemma ratio_unit (a p : Z) :
  (0 < p)%Z -> (0 <= a <= p)%Z ->
  (0 <= inject_Z a / inject_Z p /\ inject_Z a / inject_Z p <= 1)%Q.
Proof.
  intros Hp [Ha Hap].
  assert (Hp' : (0 < inject_Z p)%Q)
    by (change 0%Q with (inject_Z 0); rewrite <- Zlt_Qlt; exact Hp).
  assert (Ha' : (0 <= inject_Z a)%Q)
    by (change 0%Q with (inject_Z 0); rewrite <- Zle_Qle; exact Ha).
  assert (Hap' : (inject_Z a <= inject_Z p)%Q)
    by (rewrite <- Zle_Qle; exact Hap).
  split.
  - apply Qle_shift_div_l; [exact Hp' | lra].
  - apply Qle_shift_div_r; [exact Hp' | lra].
Qed.

Section UtilizationBounds.

Local Open Scope Q_scope.

(** Below [2^(k+1)], rounding a non-negative value to binary64 moves it by
    at most [2^(k-53)]. *)
Lemma binary64_near q k :
  0 <= q -> q < Py.pow2 (k + 1) -> (-1074 <= k - 52)%Z ->
  q - Py.pow2 (k - 53) <= Py.binary64 q
  /\ Py.binary64 q <= q + Py.pow2 (k - 53).
Proof.
  intros Hq Hlt Hk. unfold Py.binary64. rewrite Qred_correct.
  pose proof (pow2_pos (k - 53)) as Pk.
  destruct q as [n d]. cbn [Qnum].
  destruct n as [| n | n].
  - assert (E : 0 # d == 0) by reflexivity. rewrite E. split; lra.
  - apply round_positive_near; [reflexivity | exact Hlt | exact Hk].
  - exfalso. unfold Qle in Hq. cbn in Hq. lia.
Qed.

Lemma binary64_100 : Py.binary64 100 = 100.
Proof. vm_compute. reflexivity. Qed.

(** [round(x * 100, 2)] for a ratio [x0] between 0 and 1, the three
    roundings counted. *)
Lemma utilization_of_unit_ratio x0 :
  0 <= x0 -> x0 <= 1 ->
  let u := Py.round2 (Py.fmul (Py.binary64 x0) 100) in
  0 <= u /\ u <= 100
  /\ x0 * 100 - (1 # 200) - (1 # 1000000000000) <= u
  /\ u <= x0 * 100 + (1 # 200) + (1 # 1000000000000).
Proof.
  intros H0 H1 u. unfold u, Py.round2, Py.fmul. clear u.
  (* the quotient *)
  destruct (@binary64_near x0 0 H0) as [A1 A2];
    [eapply Qle_lt_trans; [exact H1 | reflexivity] | lia |].
  pose proof (binary64_mono H0) as B1. rewrite binary64_0 in B1.
  pose proof (binary64_mono H1) as B2. rewrite binary64_1 in B2.
  set (x1 := Py.binary64 x0) in *.
  (* the product *)
  assert (P0 : 0 <= x1 * 100) by lra.
  assert (P1 : x1 * 100 <= 100) by lra.
  destruct (@binary64_near (x1 * 100) 6 P0) as [A3 A4];
    [eapply Qle_lt_trans; [exact P1 | reflexivity] | lia |].
  pose proof (binary64_mono P0) as B3. rewrite binary64_0 in B3.
  pose proof (binary64_mono P1) as B4. rewrite binary64_100 in B4.
  set (x2 := Py.binary64 (x1 * 100)) in *.
  (* the decimal *)
  destruct (PyFacts.round_half_even_near (x2 * 100)) as [A5 A6].
  assert (Z0 : (0 <= Py.round_half_even (x2 * 100) <= 10000)%Z).
  { apply PyFacts.round_half_even_bounds.
    - change (inject_Z 0) with 0. lra.
    - change (inject_Z 10000) with (10000 # 1). lra. }
  set (z := Py.round_half_even (x2 * 100)) in *.
  assert (Zq0 : 0 <= inject_Z z)
    by (change 0 with (inject_Z 0); rewrite <- Zle_Qle; lia).
  assert (Zq1 : inject_Z z <= 10000)
    by (change (10000 : Q) with (inject_Z 10000); rewrite <- Zle_Qle; lia).
  assert (D : inject_Z z / 100 == inject_Z z * (1 # 100)) by reflexivity.
  assert (D0 : 0 <= inject_Z z / 100) by (rewrite D; lra).
  assert (D1 : inject_Z z / 100 <= 100) by (rewrite D; lra).
  destruct (@binary64_near (inject_Z z / 100) 6 D0) as [A7 A8];
    [eapply Qle_lt_trans; [exact D1 | reflexivity] | lia |].
  pose proof (binary64_mono D0) as B5. rewrite binary64_0 in B5.
  pose proof (binary64_mono D1) as B6. rewrite binary64_100 in B6.
  set (x3 := Py.binary64 (inject_Z z / 100)) in *.
  assert (E53 : Py.pow2 (0 - 53) == 1 # 9007199254740992) by reflexivity.
  assert (E47 : Py.pow2 (6 - 53) == 1 # 140737488355328) by reflexivity.
  rewrite E53 in A1, A2. rewrite E47 in A3, A4, A7, A8. rewrite D in A7, A8.
  repeat split; lra.
Qed.

End UtilizationBounds.

(** C7, as the spec states it, fails: with more active tasks than threads the
    utilisation exceeds 100 ([active_tasks=20, pool_size=16] gives 125), and
    the stored value is the rounded one ([1/3] gives 33.33, not 100/3). *)
Lemma pool_status_utilization_not_always_in_range :
  (exists s, pool_status_of 20 16 = Py.Returned s
             /\ ~ (utilization_pct s <= 100)%Q)
  /\ (exists s, pool_status_of 1 3 = Py.Returned s
                /\ ~ (utilization_pct s == inject_Z 1 / inject_Z 3 * 100)%Q).
Proof.
  split; eexists; (split; [reflexivity |]); intros H.
  - vm_compute in H. apply H. reflexivity.
  - vm_compute in H. discriminate H.
Qed.

(** C7 (amended): for a positive pool size the poll yields a status with
    [free_threads = pool_size - active_tasks] and
    [is_full = (free_threads <= 0)]; [utilization_pct] is the float
    [round(active_tasks / pool_size * 100, 2)], each operation rounded to
    binary64; whenever [0 <= active_tasks <= pool_size] it lies in
    [0, 100] and within 0.005 (and the three float roundings, less than
    1e-12) of [active_tasks / pool_size * 100];
    [active_tasks=16, pool_size=16] yields
    [free_threads=0, utilization_pct=100, is_full=true]. *)
Theorem pool_status_derived_fields (a p : Z) :
  (0 < p)%Z ->
  exists s,
    pool_status_of a p = Py.Returned s
    /\ active_tasks s = a /\ pool_size s = p
    /\ free_threads s = (p - a)%Z
    /\ is_full s = (free_threads s <=? 0)%Z
    /\ utilization_pct s
       = Py.round2 (Py.fmul (Py.binary64 (inject_Z a / inject_Z p)) 100)
    /\ ((0 <= a <= p)%Z ->
        (0 <= utilization_pct s /\ utilization_pct s <= 100
         /\ inject_Z a / inject_Z p * 100 - (1 # 200) - (1 # 1000000000000)
            <= utilization_pct s
         /\ utilization_pct s
            <= inject_Z a / inject_Z p * 100 + (1 # 200)
               + (1 # 1000000000000))%Q)
    /\ pool_status_of 16 16 = Py.Returned (mkPoolStatus 16 16 0 100 true).
Proof.
  intros Hp. eexists. split; [apply pool_status_of_pos; exact Hp |].
  cbn [active_tasks pool_size free_threads is_full utilization_pct].
  repeat (split; [reflexivity |]).
  split; [| vm_compute; reflexivity].
  intros Ha. destruct (ratio_unit Hp Ha) as [R0 R1].
  exact (utilization_of_unit_ratio R0 R1).
Qed.

Lemma pool_status_derived_fields_witness :
  (0 < 160)%Z /\
  exists s,
    pool_status_of 23 160 = Py.Returned s
    /\ free_threads s = 137%Z /\ is_full s = false
    /\ utilization_pct s = (8089590830664253 # 562949953421312)
    /\ (0 <= utilization_pct s /\ utilization_pct s <= 100)%Q.
Proof.
  split; [reflexivity |].
  destruct (pool_status_derived_fields 23 (p := 160) eq_refl)
    as (s & E & _ & _ & F & I & U & R & _).
  exists s. split; [exact E |].
  split; [exact F |].
  split; [rewrite I, F; reflexivity |].
  split; [rewrite U; vm_compute; reflexivity |].
  destruct R as (R0 & R1 & _); [lia |]. split; assumption.
Defined.

(** C10: with [pool_size = 0] the status is still produced, no division is
    attempted: [utilization_pct = 0], [free_threads = -active_tasks], and
    [is_full] holds whenever [active_tasks >= 0]. *)
Theorem pool_status_zero_pool_size (a : Z) :
  exists s,
    pool_status_of a 0 = Py.Returned s
    /\ utilization_pct s = 0
    /\ free_threads s = (- a)%Z
    /\ ((0 <= a)%Z -> is_full s = true).
Proof.
  eexists. split; [apply pool_status_of_nonpos; lia |].
  cbn [utilization_pct free_threads is_full].
  repeat split.
  intros Ha. apply Z.leb_le. lia.
Qed.

Lemma pool_status_zero_pool_size_witness :
  exists s,
    pool_status_of 3 0 = Py.Returned s
    /\ utilization_pct s = 0
    /\ free_threads s = (- 3)%Z
    /\ is_full s = true.
Proof.
  destruct (pool_status_zero_pool_size 3) as (s & E & U & F & I).
  exists s. repeat split; try assumption. apply I. lia.
Defined.

(** The status is produced for every pair of readings. *)
Lemma pool_status_of_value (a p : Z) :
  pool_status_of a p =
  Py.Returned
    (mkPoolStatus a p (p - a)
       (if (p >? 0)%Z
        then Py.round2 (Py.fmul (Py.binary64 (inject_Z a / inject_Z p)) 100)
        else 0)
       (p - a <=? 0)%Z).
Proof.
  destruct (Z.gtb_spec p 0) as [H | H].
  - apply pool_status_of_pos. exact H.
  - apply pool_status_of_nonpos. exact H.
Qed.

(** ** Runs of optimize_table.py *)

Section RunFacts.

Variable Server : Type.
Local Abbreviation M := (M Server).
Local Abbreviation World := (World Server).
Local Abbreviation emits Q m := (@RunProps.emits Server _ Q m).
Local Abbreviation keeps_stdin m := (@RunProps.keeps_stdin Server _ m).

Lemma emits_ret {A} Q (a : A) : emits Q (ret a).
Proof. intros w. constructor. Qed.

Lemma emits_lift {A} Q (o : Py.outcome A) : emits Q (lift o).
Proof. intros w. constructor. Qed.

Lemma emits_time Q : emits Q time.
Proof. intros w. constructor. Qed.

Lemma emits_emit (Q : event -> Prop) e : Q e -> emits Q (emit e).
Proof. intros H w. repeat constructor. exact H. Qed.

Lemma emits_input (Q : event -> Prop) prompt :
  Q (Input prompt) -> emits Q (input prompt).
Proof.
  intros H w. unfold input. destruct (stdin w); repeat constructor; exact H.
Qed.

Lemma emits_call {A} (Q : event -> Prop) e
    (f : Server -> Py.outcome A * Server) :
  Q e -> emits Q (call e f).
Proof.
  intros H w. unfold call. destruct (f (server w)).
  repeat constructor. exact H.
Qed.

Lemma emits_bind {A B} Q (m : M A) (f : A -> M B) :
  emits Q m -> (forall a, emits Q (f a)) -> emits Q (bind m f).
Proof.
  intros Hm Hf w. unfold bind.
  specialize (Hm w). destruct (m w) as [[[a | x] w1] e1]; cbn in *.
  - specialize (Hf a w1). destruct (f a w1) as [[o2 w2] e2]; cbn in *.
    apply Forall_app; split; assumption.
  - exact Hm.
Qed.

Lemma emits_try_except {A} Q (body : M A) (handler : string -> M A) :
  emits Q body -> (forall msg, emits Q (handler msg)) ->
  emits Q (try_except body handler).
Proof.
  intros Hb Hh w. unfold try_except.
  specialize (Hb w). destruct (body w) as [[[a | [msg | msg]] w1] e1]; cbn in *.
  - exact Hb.
  - specialize (Hh msg w1). destruct (handler msg w1) as [[o2 w2] e2]; cbn in *.
    apply Forall_app; split; assumption.
  - exact Hb.
Qed.

Lemma keeps_ret {A} (a : A) : keeps_stdin (ret a).
Proof. intros w. reflexivity. Qed.

Lemma keeps_lift {A} (o : Py.outcome A) : keeps_stdin (lift o).
Proof. intros w. reflexivity. Qed.

Lemma keeps_emit e : keeps_stdin (emit e).
Proof. intros w. reflexivity. Qed.

Lemma keeps_call {A} e (f : Server -> Py.outcome A * Server) :
  keeps_stdin (call e f).
Proof. intros w. unfold call. destruct (f (server w)). reflexivity. Qed.

Lemma keeps_bind {A B} (m : M A) (f : A -> M B) :
  keeps_stdin m -> (forall a, keeps_stdin (f a)) -> keeps_stdin (bind m f).
Proof.
  intros Hm Hf w. unfold bind.
  specialize (Hm w). destruct (m w) as [[[a | x] w1] e1]; cbn in *.
  - specialize (Hf a w1). destruct (f a w1) as [[o2 w2] e2]; cbn in *.
    congruence.
  - exact Hm.
Qed.

End RunFacts.

Section SyncRun.

Variable Server : Type.
Variable ch : Client Server.
Local Open Scope string_scope.

(** The poll, step by step. *)
Lemma check_background_pool_status_run (w : World Server) a p s1 :
  query_pool ch (server w) = (Py.Returned (a, p), s1) ->
  exists st,
    pool_status_of a p = Py.Returned st /\
    check_background_pool_status ch w =
    (Py.Returned st,
     {| server := s1; clock := clock w; stdin := stdin w |},
     [PoolQuery]).
Proof.
  intros H. eexists. split; [apply pool_status_of_value |].
  unfold check_background_pool_status, bind, call, lift.
  rewrite H. cbn. rewrite pool_status_of_value. reflexivity.
Qed.

(** The run of [optimize_table_sync] when the OPTIMIZE command raises. *)
Lemma optimize_table_sync_failed_run
    (table_name : option string) (final cleanup : bool)
    (w : World Server) a p s1 s2 s3 msg :
  query_pool ch (server w) = (Py.Returned (a, p), s1) ->
  command ch "SET alter_sync = 1" s1 = (Py.Returned tt, s2) ->
  command ch (optimize_query table_name final cleanup) s2
    = (Py.Raised (Py.Exn msg), s3) ->
  exists st,
    pool_status_of a p = Py.Returned st /\
    optimize_table_sync ch table_name final cleanup w =
    (Py.Returned false,
     {| server := s3;
        clock := {| Py.reading := Py.reading (clock w);
                    Py.ticks := S (S (Py.ticks (clock w))) |};
        stdin := stdin w |},
     [ PoolQuery;
       ShowPoolStatus st;
       Command "SET alter_sync = 1";
       Command (optimize_query table_name final cleanup);
       ShowFailed (Py.reading (clock w) (S (Py.ticks (clock w)))
                   - Py.reading (clock w) (Py.ticks (clock w))) msg ]).
Proof.
  intros Hpool Hset Hopt.
  destruct (check_background_pool_status_run w Hpool) as (st & Est & Erun).
  exists st. split; [exact Est |].
  unfold optimize_table_sync.
  unfold bind at 1. rewrite Erun.
  unfold bind, try_except, print_pool_status, emit, call, time, Py.sample, ret.
  cbn. rewrite Hset. cbn. rewrite Hopt. cbn. reflexivity.
Qed.

End SyncRun.

Section Strings.

Local Open Scope string_scope.

Lemma append_inj_l (s a b : string) : s ++ a = s ++ b -> a = b.
Proof.
  induction s as [| c s IH]; cbn; intros H.
  - exact H.
  - injection H as H. apply IH, H.
Qed.

Lemma append_assoc (a b c : string) : (a ++ b) ++ c = a ++ (b ++ c).
Proof.
  induction a as [| x a IH]; cbn; [reflexivity | now rewrite IH].
Qed.

(** The OPTIMIZE text is never the mode-setting command. *)
Lemma optimize_query_not_set table_name final cleanup :
  String.eqb "SET alter_sync = 1" (optimize_query table_name final cleanup)
  = false.
Proof.
  unfold optimize_query. destruct final, cleanup; reflexivity.
Qed.

Lemma length_append (a b : string) :
  String.length (a ++ b) = (String.length a + String.length b)%nat.
Proof.
  induction a as [| x a IH]; cbn; [reflexivity | now rewrite IH].
Qed.

(** A text with CLEANUP is never the text of a run without it. *)
Lemma cleanup_query_differs table_name final final' :
  optimize_query table_name final true <> optimize_query table_name final' false.
Proof.
  intros H. apply (f_equal String.length) in H. revert H.
  unfold optimize_query. destruct final, final';
    rewrite ?length_append; cbn; lia.
Qed.

End Strings.

(** C9, as the spec states it, fails: on a server whose OPTIMIZE command
    raises, the run ends right after reporting the failure; nothing follows
    the failed command but the report, and the only poll of the run is the
    one made before the command. *)
Lemma failed_run_does_not_poll_again :
  exists w' pre report,
    optimize_table_sync Fixtures.failing_client (Some "chunks"%string)
      true false (Fixtures.world0 tt [])
    = (Py.Returned false, w',
       pre ++ Command "OPTIMIZE TABLE chunks FINAL" :: [report])
    /\ report = ShowFailed 3 "Code: 159. Timeout exceeded"
    /\ polls pre = 1%nat
    /\ polls [report] = 0%nat.
Proof.
  eexists. exists [PoolQuery;
    ShowPoolStatus (mkPoolStatus 12 16 4 75 false);
    Command "SET alter_sync = 1"].
  eexists. split; [vm_compute; reflexivity |]. repeat split.
Qed.

(** C9 (amended): when the OPTIMIZE command raises an exception, the run
    does not raise: it returns [False] after reporting the failure with the
    elapsed time and the reason; the command was sent once (no retry) and
    the pool was polled once, before the command; no poll follows the
    failure.  The typed lines are untouched and the server is left in the
    state the failed command put it in, so another run can start from the
    resulting world. *)
Theorem optimize_failure_is_reported_once
    (Server : Type) (ch : Client Server)
    (table_name : option string) (final cleanup : bool)
    (w : World Server) a p s1 s2 s3 msg :
  query_pool ch (server w) = (Py.Returned (a, p), s1) ->
  command ch "SET alter_sync = 1" s1 = (Py.Returned tt, s2) ->
  command ch (optimize_query table_name final cleanup) s2
    = (Py.Raised (Py.Exn msg), s3) ->
  exists w' pre elapsed,
    optimize_table_sync ch table_name final cleanup w
    = (Py.Returned false, w',
       pre ++ [Command (optimize_query table_name final cleanup);
               ShowFailed elapsed msg])
    /\ elapsed = Py.reading (clock w) (S (Py.ticks (clock w)))
                 - Py.reading (clock w) (Py.ticks (clock w))
    /\ commands_sent (optimize_query table_name final cleanup)
         (pre ++ [Command (optimize_query table_name final cleanup);
                  ShowFailed elapsed msg]) = 1%nat
    /\ polls pre = 1%nat
    /\ polls (pre ++ [Command (optimize_query table_name final cleanup);
                      ShowFailed elapsed msg]) = 1%nat
    /\ server w' = s3
    /\ stdin w' = stdin w.
Proof.
  intros Hpool Hset Hopt.
  destruct (optimize_table_sync_failed_run ch table_name final cleanup
              w Hpool Hset Hopt) as (st & _ & Erun).
  eexists. exists [PoolQuery; ShowPoolStatus st; Command "SET alter_sync = 1"%string].
  eexists. split; [exact Erun |].
  split; [reflexivity |].
  split.
  - unfold commands_sent. cbn [app filter].
    rewrite optimize_query_not_set, String.eqb_refl. reflexivity.
  - repeat split.
Qed.

Lemma optimize_failure_is_reported_once_witness :
  exists w' pre,
    optimize_table_sync Fixtures.failing_client (Some "chunks"%string)
      true true (Fixtures.world0 tt ["no"; "yes"]%string)
    = (Py.Returned false, w',
       pre ++ [Command "OPTIMIZE TABLE chunks FINAL CLEANUP";
               ShowFailed (3 - 0) "Code: 159. Timeout exceeded"])
    /\ polls pre = 1%nat
    /\ stdin w' = ["no"; "yes"]%string.
Proof.
  destruct (@optimize_failure_is_reported_once unit Fixtures.failing_client
              (Some "chunks"%string) true true
              (Fixtures.world0 tt ["no"; "yes"]%string)
              12%Z 16%Z tt tt tt "Code: 159. Timeout exceeded"%string
              eq_refl eq_refl eq_refl)
    as (w' & pre & elapsed & E & El & _ & P & _ & _ & I).
  exists w', pre. subst elapsed. split; [exact E |]. split; [exact P | exact I].
Defined.

(** ** Which commands a run can send *)

Section Commands.

Variable Server : Type.
Variables strip lower : string -> string.
Variable ch : Client Server.
Local Open Scope string_scope.

Lemma silent_sync table_name final cleanup e :
  silent e -> sync_event table_name final cleanup e.
Proof. intros H sql E. destruct (H sql E). Qed.

Lemma check_background_pool_status_silent :
  emits silent (check_background_pool_status ch).
Proof.
  unfold check_background_pool_status.
  apply emits_bind; [apply emits_call; intros sql; discriminate |].
  intros row. apply emits_lift.
Qed.

Lemma check_background_pool_status_keeps :
  keeps_stdin (check_background_pool_status ch).
Proof.
  unfold check_background_pool_status.
  apply keeps_bind; [apply keeps_call |]. intros row. apply keeps_lift.
Qed.

Lemma check_merge_operations_silent table_name :
  emits silent (check_merge_operations ch table_name).
Proof.
  unfold check_merge_operations. apply emits_bind.
  - destruct (Py.truthy table_name); apply emits_call; intros sql; discriminate.
  - intros [| r rows]; apply emits_emit; intros sql; discriminate.
Qed.

Lemma check_merge_operations_keeps table_name :
  keeps_stdin (check_merge_operations ch table_name).
Proof.
  unfold check_merge_operations. apply keeps_bind.
  - destruct (Py.truthy table_name); apply keeps_call.
  - intros [| r rows]; apply keeps_emit.
Qed.

(** [optimize_table_sync] sends the mode-setting command and the OPTIMIZE
    text built from its own flags, nothing else. *)
Lemma optimize_table_sync_commands table_name final cleanup :
  emits (sync_event table_name final cleanup)
        (optimize_table_sync ch table_name final cleanup).
Proof.
  unfold optimize_table_sync.
  apply emits_bind.
  { intros w. eapply Forall_impl; [apply silent_sync |].
    apply check_background_pool_status_silent. }
  intros status. apply emits_bind.
  { apply emits_emit. intros sql; discriminate. }
  intros _. apply emits_bind.
  { apply emits_call. intros sql E. injection E as <-. now left. }
  intros _. apply emits_bind; [apply emits_time |].
  intros start_time. apply emits_try_except.
  - apply emits_bind.
    { apply emits_call. intros sql E. injection E as <-. now right. }
    intros _. apply emits_bind; [apply emits_time |].
    intros t. apply emits_bind.
    { apply emits_emit. intros sql; discriminate. }
    intros _. apply emits_bind.
    { intros w. eapply Forall_impl; [apply silent_sync |].
      apply check_background_pool_status_silent. }
    intros st. apply emits_bind.
    { apply emits_emit. intros sql; discriminate. }
    intros _. apply emits_ret.
  - intros msg. apply emits_bind; [apply emits_time |].
    intros t. apply emits_bind.
    { apply emits_emit. intros sql; discriminate. }
    intros _. apply emits_ret.
Qed.

Lemma sync_event_gated TABLE typed e :
  sync_event TABLE true false e -> gated strip lower TABLE typed e.
Proof.
  intros H final E. destruct (H _ E) as [S | S].
  - pose proof (optimize_query_not_set TABLE final true) as N.
    rewrite <- S, String.eqb_refl in N. discriminate N.
  - destruct (@cleanup_query_differs _ _ _ S).
Qed.

Lemma silent_gated TABLE typed e : silent e -> gated strip lower TABLE typed e.
Proof. intros H final E. destruct (H _ E). Qed.

(** The prompts: every CLEANUP command they lead to was confirmed. *)
Lemma proceed_gated TABLE (w : World Server) :
  Forall (gated strip lower TABLE (stdin w))
      (snd (proceed strip lower ch TABLE w)).
Proof.
  unfold proceed.
  unfold bind at 1. unfold input at 1.
  destruct (stdin w) as [| line1 typed] eqn:Ew; cbn [snd].
  { repeat constructor. intros f; discriminate. }
  set (w1 := {| server := server w; clock := clock w; stdin := typed |}).
  destruct (Py.str_in (lower (strip line1)) ["yes"; "y"]) eqn:R1.
  - (* FINAL accepted *)
    pose proof (@emits_bind Server _ _ (sync_event TABLE true false)
                  (optimize_table_sync ch TABLE true false)
                  (fun _ => ret tt)
                  (optimize_table_sync_commands TABLE true false)
                  (fun _ => emits_ret _ tt) w1) as H.
    destruct (bind (optimize_table_sync ch TABLE true false)
                   (fun _ => ret tt) w1) as [[o w2] e2].
    cbn [snd] in *. constructor; [intros f; discriminate |].
    eapply Forall_impl; [apply sync_event_gated | exact H].
  - (* FINAL declined: second prompt *)
    unfold bind at 1. unfold input at 1. cbn [stdin w1]. subst w1. cbn [stdin].
    destruct typed as [| line2 rest]; cbn [snd app].
    { repeat constructor; intros f; discriminate. }
    destruct (Py.str_in (lower (strip line2)) ["yes"; "y"]) eqn:R2.
    + (* CLEANUP accepted: the typed lines are the confirmation *)
      match goal with |- context [bind ?m ?f ?x] =>
        destruct (bind m f x) as [[o w2] e2] end.
      cbn [snd]. apply Forall_forall. intros e _ final _.
      exists line1, line2, rest. auto.
    + cbn. repeat constructor; intros f; discriminate.
Qed.

End Commands.

Section MainRun.

Variable Server : Type.
Variables strip lower : string -> string.
Variable ch : Client Server.
Local Open Scope string_scope.

(** Steps that read no typed line and send no command can be skipped when
    looking for the confirmation. *)
Lemma gated_after_silent {A B} (m : M Server A) (f : A -> M Server B) TABLE :
  keeps_stdin m -> emits silent m ->
  (forall a w1, Forall (gated strip lower TABLE (stdin w1)) (snd (f a w1))) ->
  forall w, Forall (gated strip lower TABLE (stdin w)) (snd (bind m f w)).
Proof.
  intros K E F w. unfold bind.
  specialize (K w). specialize (E w).
  destruct (m w) as [[[a | x] w1] e1]; cbn in *.
  - specialize (F a w1). destruct (f a w1) as [[o w2] e2]; cbn in *.
    rewrite <- K. apply Forall_app. split; [| exact F].
    eapply Forall_impl; [apply silent_gated | exact E].
  - eapply Forall_impl; [apply silent_gated | exact E].
Qed.

Lemma main_gated TABLE (w : World Server) :
  Forall (gated strip lower TABLE (stdin w))
      (snd (main strip lower ch TABLE w)).
Proof.
  unfold main.
  apply gated_after_silent;
    [apply check_background_pool_status_keeps
    | apply check_background_pool_status_silent |].
  intros status w1. apply gated_after_silent.
  { intros w0. reflexivity. }
  { apply emits_emit. intros sql; discriminate. }
  intros _ w2. apply gated_after_silent;
    [apply check_merge_operations_keeps
    | apply check_merge_operations_silent |].
  intros _ w3. apply proceed_gated.
Qed.

End MainRun.

(** C8: FINAL is the default ([final=True, cleanup=False] give the text
    [OPTIMIZE TABLE <t> FINAL]); a run of [optimize_table_sync] without the
    cleanup flag never sends a text with CLEANUP; and [main] sends an
    OPTIMIZE text with CLEANUP only when the caller declined FINAL at the
    first prompt and typed yes (or y) at the CLEANUP prompt. *)
Theorem cleanup_needs_confirmation
    (Server : Type) (strip lower : string -> string)
    (ch : Client Server) (TABLE : option string) (w : World Server) :
  optimize_query TABLE default_final default_cleanup
    = ("OPTIMIZE TABLE " ++ Py.str_of_opt TABLE ++ " FINAL")%string
  /\ (forall final final',
        ~ In (Command (optimize_query TABLE final' true))
             (snd (optimize_table_sync ch TABLE final default_cleanup w)))
  /\ (forall final,
        In (Command (optimize_query TABLE final true))
            (snd (main strip lower ch TABLE w)) ->
        cleanup_confirmed strip lower (stdin w)).
Proof.
  split; [| split].
  - unfold optimize_query, default_final, default_cleanup.
    apply append_assoc.
  - intros final final' Hin.
    pose proof (optimize_table_sync_commands ch TABLE final default_cleanup w)
      as H.
    rewrite Forall_forall in H. destruct (H _ Hin _ eq_refl) as [S | S].
    + pose proof (optimize_query_not_set TABLE final' true) as N.
      rewrite <- S, String.eqb_refl in N. discriminate N.
    + destruct (@cleanup_query_differs _ _ _ S).
  - intros final Hin.
    pose proof (main_gated strip lower ch TABLE w) as H.
    rewrite Forall_forall in H. exact (H _ Hin final eq_refl).
Qed.

Lemma cleanup_needs_confirmation_witness :
  In (Command "OPTIMIZE TABLE chunks FINAL CLEANUP")
     (snd (main Fixtures.ascii_strip Fixtures.ascii_lower
             Fixtures.healthy_client (Some "chunks"%string)
             (Fixtures.world0 0%nat ["no"; " YES "]%string)))
  /\ cleanup_confirmed Fixtures.ascii_strip Fixtures.ascii_lower
      ["no"; " YES "]%string.
Proof.
  assert (Hin : In (Command "OPTIMIZE TABLE chunks FINAL CLEANUP")
     (snd (main Fixtures.ascii_strip Fixtures.ascii_lower
             Fixtures.healthy_client (Some "chunks"%string)
             (Fixtures.world0 0%nat ["no"; " YES "]%string)))).
  { vm_compute. repeat (first [left; reflexivity | right]). }
  split; [exact Hin |].
  exact (proj2 (proj2 (cleanup_needs_confirmation
                         Fixtures.ascii_strip Fixtures.ascii_lower
                             Fixtures.healthy_client
                         (Some "chunks"%string)
                         (Fixtures.world0 0%nat ["no"; " YES "]%string)))
               true Hin).
Defined.

(** ** The KNN query *)

Import QueryKnn TableProps.

Section OrderBy.

Lemma insert_by_score_perm x l : Permutation (insert_by_score x l) (x :: l).
Proof.
  induction l as [| y l IH]; cbn.
  - apply Permutation_refl.
  - destruct (Qle_bool (snd x) (snd y)).
    + apply Permutation_refl.
    + eapply perm_trans; [apply perm_skip, IH | apply perm_swap].
Qed.

Lemma order_by_score_perm l : Permutation (order_by_score l) l.
Proof.
  induction l as [| x l IH]; cbn.
  - constructor.
  - eapply perm_trans; [apply insert_by_score_perm | apply perm_skip, IH].
Qed.

Lemma insert_by_score_sorted x l :
  StronglySorted le_score l -> StronglySorted le_score (insert_by_score x l).
Proof.
  induction l as [| y l IH]; cbn; intros Hs.
  - repeat constructor.
  - inversion Hs as [| ? ? Hl Hy]; subst.
    destruct (Qle_bool (snd x) (snd y)) eqn:E.
    + apply Qle_bool_iff in E. constructor; [exact Hs |].
      constructor; [exact E |].
      eapply Forall_impl; [| exact Hy].
      intros z Hz. unfold le_score in *. eapply Qle_trans; eassumption.
    + assert (Hyx : le_score y x).
      { unfold le_score. destruct (Qlt_le_dec (snd y) (snd x)) as [L | L].
        - apply Qlt_le_weak, L.
        - apply Qle_bool_iff in L. congruence. }
      constructor; [apply IH, Hl |].
      eapply Permutation_Forall;
        [apply Permutation_sym, insert_by_score_perm |].
      constructor; assumption.
Qed.

Lemma order_by_score_sorted l : StronglySorted le_score (order_by_score l).
Proof.
  induction l as [| x l IH]; cbn.
  - constructor.
  - apply insert_by_score_sorted, IH.
Qed.

Lemma firstn_In {A} k (l : list A) x : In x (firstn k l) -> In x l.
Proof.
  intros H. rewrite <- (firstn_skipn k l). apply in_or_app. now left.
Qed.


End OrderBy.

Section KnnFacts.

Variable cosineDistance : list Q -> list Q -> Q.
Local Abbreviation select_rows := (QueryKnn.select_rows cosineDistance).
Local Abbreviation query := (QueryKnn.query cosineDistance).
Local Abbreviation score := (QueryKnn.score cosineDistance).

Lemma in_scope_spec s r :
  in_scope s r = true <-> tenant_id r = q_tenant s /\ source r = q_source s.
Proof.
  unfold in_scope. rewrite andb_true_iff, Z.eqb_eq, String.eqb_eq. tauto.
Qed.

(** The candidates of a query: the rows in scope, each with its score. *)
Lemma candidates_length s table :
  List.length (order_by_score
                 (map (fun r => (r, score s r)) (filter (in_scope s) table)))
  = in_scope_count s table.
Proof.
  rewrite (Permutation_length (order_by_score_perm _)).
  apply length_map.
Qed.

(** Every selected row is a row of the table inside the scope, paired with
    its own score. *)
Lemma select_rows_sound s table x :
  In x (select_rows s table) ->
  In (fst x) table /\ in_scope s (fst x) = true /\ snd x = score s (fst x).
Proof.
  intros H. apply firstn_In in H.
  apply (Permutation_in _ (order_by_score_perm _)) in H.
  apply in_map_iff in H. destruct H as (r & <- & Hr).
  apply filter_In in Hr. cbn. tauto.
Qed.





Lemma map_sorted {A B} (f : A -> B) (R : B -> B -> Prop) l :
  StronglySorted (fun a b => R (f a) (f b)) l -> StronglySorted R (map f l).
Proof.
  induction 1 as [| x l Hl IH Hx]; cbn; constructor.
  - exact IH.
  - rewrite Forall_forall in *. intros y Hy.
    apply in_map_iff in Hy. destruct Hy as (z & <- & Hz). apply Hx, Hz.
Qed.




(** Every row of the answer comes from a row of the table in scope. *)
Lemma query_sound s table x :
  In x (query s table) ->
  exists r, In r table /\ tenant_id r = q_tenant s /\ source r = q_source s
            /\ x = (content r, score s r).
Proof.
  unfold QueryKnn.query. intros H. apply in_map_iff in H.
  destruct H as ([r q] & <- & H). apply select_rows_sound in H.
  destruct H as (Hin & Hs & Hq). apply in_scope_spec in Hs. cbn in *.
  exists r. subst q. tauto.
Qed.

(** The server accepts the statement exactly when the rows in scope have
    the dimension of the query vector. *)
Lemma sizes_match_spec s table :
  sizes_match s table = true
  <-> dimension_in_scope (q_tenant s) (q_source s) (List.length (q_vector s))
        table.
Proof.
  unfold sizes_match, dimension_in_scope. rewrite forallb_forall. split.
  - intros H r Hin Ht Hs. apply Nat.eqb_eq. apply (H r).
    apply filter_In. split; [exact Hin |]. apply in_scope_spec. tauto.
  - intros H r Hr. apply filter_In in Hr. destruct Hr as [Hin Hs].
    apply in_scope_spec in Hs. apply Nat.eqb_eq. apply H; tauto.
Qed.

Lemma sizes_match_limit v tenant src k k' table :
  sizes_match (mkKnnSelect v tenant src k) table
  = sizes_match (mkKnnSelect v tenant src k') table.
Proof. reflexivity. Qed.

Lemma sizes_match_other s table r :
  In r table -> in_scope s r = true ->
  List.length (embedding r) <> List.length (q_vector s) ->
  sizes_match s table = false.
Proof.
  intros Hin Hs Hne. destruct (sizes_match s table) eqn:E; [| reflexivity].
  apply sizes_match_spec in E. apply in_scope_spec in Hs.
  destruct Hne. apply (E r); tauto.
Qed.

Lemma ch_query_accepted s table :
  dimension_in_scope (q_tenant s) (q_source s) (List.length (q_vector s))
    table ->
  QueryKnn.ch_query cosineDistance s table = Py.Returned (query s table).
Proof.
  intros H. apply sizes_match_spec in H. unfold QueryKnn.ch_query.
  now rewrite H.
Qed.

Lemma ch_query_rejected s table r :
  In r table -> in_scope s r = true ->
  List.length (embedding r) <> List.length (q_vector s) ->
  QueryKnn.ch_query cosineDistance s table
  = Py.Raised (Py.Exn "DatabaseError").
Proof.
  intros Hin Hs Hne. unfold QueryKnn.ch_query.
  now rewrite (sizes_match_other s table r Hin Hs Hne).
Qed.

End KnnFacts.




Section Determinism.

Variable cosineDistance : list Q -> list Q -> Q.

Lemma filter_perm {A} (f : A -> bool) l l' :
  Permutation l l' -> Permutation (filter f l) (filter f l').
Proof.
  induction 1 as [| x l l' _ IH | x y l | l l' l'' _ IH1 _ IH2]; cbn.
  - constructor.
  - destruct (f x); [apply perm_skip |]; exact IH.
  - destruct (f x), (f y);
      try apply perm_swap; try apply Permutation_refl.
  - eapply perm_trans; eassumption.
Qed.

(** A list sorted on the score has one sorted arrangement only, as soon as
    rows of equal score are equal. *)
Lemma sorted_perm_unique (l1 l2 : list (VectorRecord * Q)) :
  Permutation l1 l2 ->
  StronglySorted le_score l1 -> StronglySorted le_score l2 ->
  (forall a b, In a l1 -> In b l1 -> le_score a b -> le_score b a -> a = b) ->
  l1 = l2.
Proof.
  revert l2. induction l1 as [| a l1 IH]; intros l2 P S1 S2 Anti.
  - symmetry. apply Permutation_nil, P.
  - destruct l2 as [| b l2].
    { apply Permutation_sym, Permutation_nil in P. discriminate P. }
    inversion S1 as [| ? ? S1' F1]; subst.
    inversion S2 as [| ? ? S2' F2]; subst.
    rewrite Forall_forall in F1, F2.
    assert (Hba : le_score b a).
    { destruct (Permutation_in _ P (or_introl eq_refl)) as [-> | Hin].
      - apply Qle_refl.
      - apply F2, Hin. }
    assert (Hb : In b (a :: l1))
      by (apply (Permutation_in _ (Permutation_sym P)); now left).
    assert (Hab : le_score a b).
    { destruct Hb as [-> | Hin]; [apply Qle_refl | apply F1, Hin]. }
    assert (E : a = b) by (apply Anti; auto; now left).
    subst b. f_equal. apply IH; auto.
    + eapply Permutation_cons_inv, P.
    + intros x y Hx Hy. apply Anti; now right.
Qed.



End Determinism.




(** C6, as the spec states it, fails: a query whose source is empty is not
    rejected: the retrieval is sent and its rows come back; and a question
    embedded in three dimensions is not stopped before the retrieval: the
    statement is sent against rows stored with two, and the error the call
    ends with is the server's. *)
Lemma knn_query_empty_source_not_rejected :
  knn_query Fixtures.toy_encode Fixtures.unit_distance
    8 "" 5 "which?" Fixtures.table_ab
  = ([mkKnnSelect [1; 0] 8 "" 5], Py.Returned [("gamma"%string, 1)])
  /\ knn_query (fun _ => [[1; 0; 0]]) Fixtures.unit_distance
       7 "demo" 5 "which?" Fixtures.table_ab
     = ([mkKnnSelect [1; 0; 0] 7 "demo" 5],
        Py.Raised (Py.Exn "DatabaseError"))
  /\ Forall (fun r => List.length (embedding r) = 2%nat) Fixtures.table_ab.
Proof.
  split; [reflexivity |]. split; [reflexivity |].
  repeat constructor.
Qed.

(** C6 (amended): the script checks neither the scope nor the dimension
    before the retrieval.  Whenever the model returns an embedding for the
    question, one retrieval is issued, restricted to the tenant and the
    source given, whatever they are (an empty source included; the source
    holds neither a quote nor a backslash).  When the rows stored in that
    scope have the dimension of the question's embedding, the call returns
    rows of that tenant and source only.  When a row stored in that scope
    has another dimension, the call (with [top_k > 0]) is rejected, by the
    server and once the retrieval is issued.  In both cases the retrieval is all that is sent:
    the store is not changed.  The only error the script itself raises is
    the one on an empty answer of the model, before any retrieval. *)
Theorem knn_query_sends_without_validation
    (encode : list string -> list (list Q))
    (cosineDistance : list Q -> list Q -> Q)
    (TENANT_ID : Z) (SOURCE : string) (TOP_K : nat) (QUESTION : string)
    (table : Table) :
  sql_plain SOURCE = true ->
  (forall v vs, encode [QUESTION] = v :: vs ->
     fst (knn_query encode cosineDistance TENANT_ID SOURCE TOP_K QUESTION
            table)
     = [mkKnnSelect v TENANT_ID SOURCE TOP_K]
     /\ (dimension_in_scope TENANT_ID SOURCE (List.length v) table ->
         exists result,
           snd (knn_query encode cosineDistance TENANT_ID SOURCE TOP_K
                  QUESTION table)
           = Py.Returned result
           /\ forall x, In x result ->
                exists r, In r table
                          /\ tenant_id r = TENANT_ID /\ source r = SOURCE
                          /\ x = (content r, cosineDistance (embedding r) v))
     /\ (forall r,
           (0 < TOP_K)%nat ->
           In r table -> tenant_id r = TENANT_ID -> source r = SOURCE ->
           List.length (embedding r) <> List.length v ->
           snd (knn_query encode cosineDistance TENANT_ID SOURCE TOP_K
                  QUESTION table)
           = Py.Raised (Py.Exn "DatabaseError")))
  /\ (encode [QUESTION] = [] ->
      knn_query encode cosineDistance TENANT_ID SOURCE TOP_K QUESTION table
      = ([], Py.Raised (Py.Exn "IndexError"))).
Proof.
  intros _. split.
  - intros v vs E. unfold knn_query. rewrite E. cbn [fst snd].
    split; [reflexivity |]. split.
    + intros Hd. rewrite ch_query_accepted by exact Hd.
      eexists. split; [reflexivity |].
      intros x Hx. apply query_sound in Hx. exact Hx.
    + intros r _ Hin Ht Hs Hne.
      apply (@ch_query_rejected cosineDistance _ table r Hin);
        [apply in_scope_spec; split; assumption | exact Hne].
  - intros E. unfold knn_query. rewrite E. reflexivity.
Qed.

Lemma knn_query_sends_without_validation_witness :
  (exists result,
     knn_query Fixtures.toy_encode Fixtures.unit_distance
       8 "" 5 "which?" Fixtures.table_ab
     = ([mkKnnSelect [1; 0] 8 "" 5], Py.Returned result)
     /\ forall x, In x result ->
          exists r, In r Fixtures.table_ab
                    /\ tenant_id r = 8%Z /\ source r = ""%string
                    /\ x = (content r, Fixtures.unit_distance (embedding r)
                                         [1; 0]))
  /\ snd (knn_query (fun _ => [[1; 0; 0]]) Fixtures.unit_distance
            7 "demo" 5 "which?" Fixtures.table_ab)
     = Py.Raised (Py.Exn "DatabaseError")
  /\ knn_query (fun _ => []) Fixtures.unit_distance
       8 "" 5 "which?" Fixtures.table_ab
     = ([], Py.Raised (Py.Exn "IndexError")).
Proof.
  split; [| split].
  - destruct (proj1 (@knn_query_sends_without_validation
                       Fixtures.toy_encode Fixtures.unit_distance
                       8 ""%string 5 "which?"%string Fixtures.table_ab
                       eq_refl)
                    [1; 0] [] eq_refl) as (Hs & Hr & _).
    destruct Hr as (result & E & Hin).
    + apply (sizes_match_spec (mkKnnSelect [1; 0] 8 "" 5)). reflexivity.
    + exists result. split; [| exact Hin].
      rewrite (surjective_pairing (knn_query _ _ _ _ _ _ _)), Hs, E.
      reflexivity.
  - exact (proj2 (proj2 (proj1 (@knn_query_sends_without_validation
                                  (fun _ => [[1; 0; 0]])
                                  Fixtures.unit_distance
                                  7 "demo"%string 5 "which?"%string
                                  Fixtures.table_ab eq_refl)
                               [1; 0; 0] [] eq_refl))
                 Fixtures.row_a ltac:(lia) (or_introl eq_refl)
                 eq_refl eq_refl ltac:(discriminate)).
  - exact (proj2 (@knn_query_sends_without_validation
                    (fun _ => []) Fixtures.unit_distance
                    8 ""%string 5 "which?"%string Fixtures.table_ab eq_refl)
                 eq_refl).
Defined.

(** ** Ingestion *)

Import IngestChunks.

Section IngestFacts.

Variable encode : list string -> list (list Q).
Variable TENANT_ID : Z.
Variable SOURCE : string.

Local Abbreviation prepare_rows := (IngestChunks.prepare_rows TENANT_ID SOURCE).
Local Abbreviation ingest := (IngestChunks.ingest encode TENANT_ID SOURCE).

(** The row built at position [k] of the loop started at index [i]. *)
Lemma prepare_rows_nth pairs : forall i c k text emb,
  nth_error pairs k = Some (text, emb) ->
  nth_error (fst (prepare_rows i pairs c)) k =
  Some {| doc_id := 1;
          chunk_id := Z.of_nat (i + k);
          content := text;
          embedding := emb;
          source := SOURCE;
          tenant_id := TENANT_ID;
          ts := Py.reading c (Py.ticks c + k) |}.
Proof.
  induction pairs as [| [t e] pairs IH]; intros i c k text emb H.
  - destruct k; discriminate H.
  - cbn [IngestChunks.prepare_rows Py.sample].
    match goal with |- context [IngestChunks.prepare_rows _ _ (S i) pairs ?c1] =>
      specialize (IH (S i) c1);
      destruct (IngestChunks.prepare_rows TENANT_ID SOURCE (S i) pairs c1)
        as [rows c2] eqn:E
    end.
    destruct k as [| k]; cbn [nth_error fst] in *.
    + injection H as -> ->. rewrite !Nat.add_0_r. reflexivity.
    + rewrite (IH k text emb H). cbn [Py.reading Py.ticks].
      rewrite !Nat.add_succ_r. reflexivity.
Qed.

Lemma prepare_rows_length pairs : forall i c,
  List.length (fst (prepare_rows i pairs c)) = List.length pairs.
Proof.
  induction pairs as [| [t e] pairs IH]; intros i c; [reflexivity |].
  cbn [IngestChunks.prepare_rows Py.sample].
  match goal with |- context [IngestChunks.prepare_rows _ _ (S i) pairs ?c1] =>
    specialize (IH (S i) c1);
    destruct (IngestChunks.prepare_rows TENANT_ID SOURCE (S i) pairs c1)
      as [rows c2]
  end.
  cbn in *. now rewrite IH.
Qed.

(** Every row of the batch, by its position. *)
Lemma prepare_rows_In pairs i c r :
  In r (fst (prepare_rows i pairs c)) ->
  exists k text emb,
    nth_error pairs k = Some (text, emb)
    /\ r = {| doc_id := 1;
              chunk_id := Z.of_nat (i + k);
              content := text;
              embedding := emb;
              source := SOURCE;
              tenant_id := TENANT_ID;
              ts := Py.reading c (Py.ticks c + k) |}.
Proof.
  intros H. apply In_nth_error in H. destruct H as [k Hk].
  assert (Hlt : (k < List.length pairs)%nat).
  { rewrite <- (prepare_rows_length pairs i c).
    apply nth_error_Some. congruence. }
  destruct (nth_error pairs k) as [[text emb] |] eqn:E.
  - exists k, text, emb. split; [exact E |].
    rewrite (@prepare_rows_nth pairs i c k text emb E) in Hk. congruence.
  - apply nth_error_None in E. lia.
Qed.

(** The pieces of a run of the script. *)
Lemma ingest_rows texts table c :
  fst (fst (ingest texts table c))
  = fst (prepare_rows 0 (combine texts (encode texts)) c)
  /\ snd (fst (ingest texts table c))
     = table ++ fst (fst (ingest texts table c)).
Proof.
  unfold IngestChunks.ingest, rows_of, insert.
  destruct (IngestChunks.prepare_rows TENANT_ID SOURCE 0
              (combine texts (encode texts)) c) as [rows c'].
  split; reflexivity.
Qed.

(** Every row of the batch carries the scope of the script. *)
Lemma ingest_rows_scope texts table c r :
  In r (fst (fst (ingest texts table c))) ->
  tenant_id r = TENANT_ID /\ source r = SOURCE.
Proof.
  rewrite (proj1 (ingest_rows texts table c)). intros H.
  apply prepare_rows_In in H. destruct H as (k & text & emb & _ & ->).
  split; reflexivity.
Qed.

End IngestFacts.

Section IngestBatch.

Variable encode : list string -> list (list Q).
Variable TENANT_ID : Z.
Variable SOURCE : string.

Local Abbreviation prepare_rows := (IngestChunks.prepare_rows TENANT_ID SOURCE).
Local Abbreviation ingest := (IngestChunks.ingest encode TENANT_ID SOURCE).

Lemma prepare_rows_contents pairs : forall i c,
  map content (fst (prepare_rows i pairs c)) = map fst pairs.
Proof.
  induction pairs as [| [t e] pairs IH]; intros i c; [reflexivity |].
  cbn [IngestChunks.prepare_rows Py.sample].
  match goal with |- context [IngestChunks.prepare_rows _ _ (S i) pairs ?c1] =>
    specialize (IH (S i) c1);
    destruct (IngestChunks.prepare_rows TENANT_ID SOURCE (S i) pairs c1)
      as [rows c2]
  end.
  cbn in *. now rewrite IH.
Qed.

Lemma prepare_rows_chunk_ids pairs : forall i c,
  map chunk_id (fst (prepare_rows i pairs c))
  = map Z.of_nat (seq i (List.length pairs)).
Proof.
  induction pairs as [| [t e] pairs IH]; intros i c; [reflexivity |].
  cbn [IngestChunks.prepare_rows Py.sample].
  match goal with |- context [IngestChunks.prepare_rows _ _ (S i) pairs ?c1] =>
    specialize (IH (S i) c1);
    destruct (IngestChunks.prepare_rows TENANT_ID SOURCE (S i) pairs c1)
      as [rows c2]
  end.
  cbn in *. now rewrite IH.
Qed.

Lemma combine_fst {A B} (l : list A) : forall (l' : list B),
  (List.length l <= List.length l')%nat -> map fst (combine l l') = l.
Proof.
  induction l as [| x l IH]; intros [| y l'] H; cbn in *;
    try reflexivity; try lia.
  f_equal. apply IH. lia.
Qed.


Lemma combine_snd_firstn {A B} (l : list A) : forall (l' : list B),
  map snd (combine l l') = firstn (List.length l) l'.
Proof.
  induction l as [| x l IH]; intros [| y l']; cbn; try reflexivity.
  now rewrite IH.
Qed.

Lemma prepare_rows_embeddings pairs : forall i c,
  map embedding (fst (prepare_rows i pairs c)) = map snd pairs.
Proof.
  induction pairs as [| [t e] pairs IH]; intros i c; [reflexivity |].
  cbn [IngestChunks.prepare_rows Py.sample].
  match goal with |- context [IngestChunks.prepare_rows _ _ (S i) pairs ?c1] =>
    specialize (IH (S i) c1);
    destruct (IngestChunks.prepare_rows TENANT_ID SOURCE (S i) pairs c1)
      as [rows c2]
  end.
  cbn in *. now rewrite IH.
Qed.


End IngestBatch.




(** C3, as the spec states it, fails: the clock is read once per chunk, so
    on a clock that advances between two readings the four rows of one batch
    carry four different [ts] values. *)
Lemma ingest_rows_timestamps_differ :
  let rows := fst (fst (ingest Fixtures.toy_encode IngestChunks.TENANT_ID
                          IngestChunks.SOURCE IngestChunks.texts
                          [] Fixtures.clock0)) in
  map ts rows = [0; 3; 6; 9]
  /\ ~ (exists t, Forall (fun r => ts r = t) rows).
Proof.
  cbv zeta. split; [reflexivity |].
  intros [t H]. vm_compute in H.
  inversion H as [| ? ? H0 H']; subst.
  inversion H' as [| ? ? H1 _]; subst.
  discriminate H1.
Qed.

(** C3 (amended): every row written by a run carries the wall-clock reading
    taken when that row was built: the row of chunk [k] has the [k]-th
    reading of the run, one reading per chunk; the rows of a batch share one
    [ts] value when those readings coincide. *)
Theorem ingest_timestamps_follow_clock
    (encode : list string -> list (list Q)) (TENANT_ID : Z) (SOURCE : string)
    (texts : list string) (table : Table) (c : Py.Clock) :
  let rows := fst (fst (ingest encode TENANT_ID SOURCE texts table c)) in
  (forall k r, nth_error rows k = Some r ->
     chunk_id r = Z.of_nat k /\ ts r = Py.reading c (Py.ticks c + k))
  /\ (forall t,
        (forall k, (k < List.length rows)%nat ->
                   Py.reading c (Py.ticks c + k) = t) ->
        Forall (fun r => ts r = t) rows).
Proof.
  intros rows.
  destruct (ingest_rows encode TENANT_ID SOURCE texts table c) as [Er _].
  fold rows in Er.
  assert (Hnth : forall k r, nth_error rows k = Some r ->
            chunk_id r = Z.of_nat k /\ ts r = Py.reading c (Py.ticks c + k)).
  { intros k r Hk. rewrite Er in Hk.
    assert (Hlt : (k < List.length (combine texts (encode texts)))%nat).
    { rewrite <- (prepare_rows_length TENANT_ID SOURCE _ 0 c).
      apply nth_error_Some. congruence. }
    destruct (nth_error (combine texts (encode texts)) k)
      as [[text emb] |] eqn:E.
    - rewrite (@prepare_rows_nth TENANT_ID SOURCE _ 0 c k text emb E) in Hk.
      injection Hk as <-. split; reflexivity.
    - apply nth_error_None in E. lia. }
  split; [exact Hnth |].
  intros t Ht. apply Forall_forall. intros r Hr.
  apply In_nth_error in Hr. destruct Hr as [k Hk].
  rewrite (proj2 (Hnth k r Hk)). apply Ht.
  apply nth_error_Some. congruence.
Qed.

Lemma ingest_timestamps_follow_clock_witness :
  let rows := fst (fst (ingest Fixtures.toy_encode IngestChunks.TENANT_ID
                          IngestChunks.SOURCE IngestChunks.texts
                          Fixtures.table_ab Fixtures.clock0)) in
  exists r, nth_error rows 2 = Some r /\ chunk_id r = 2%Z /\ ts r = 6.
Proof.
  intros rows.
  assert (E : nth_error rows 2 = Some
     {| doc_id := 1; chunk_id := 2;
        content := "LLMs require external context to avoid hallucination.";
        embedding := [0; 1]; source := IngestChunks.SOURCE;
        tenant_id := IngestChunks.TENANT_ID; ts := 6 |}) by reflexivity.
  eexists. split; [exact E |].
  exact (proj1 (@ingest_timestamps_follow_clock Fixtures.toy_encode
                  IngestChunks.TENANT_ID IngestChunks.SOURCE
                  IngestChunks.texts Fixtures.table_ab Fixtures.clock0)
               2%nat _ E).
Defined.




(** * Further properties of the scripts *)

(** ** Every run of [optimize_table_sync] *)

Import RunShapes.

Section SyncShapes.

Variable Server : Type.
Variable ch : Client Server.
Local Open Scope string_scope.

(** Whatever the server answers, a run goes one of the seven ways of
    [sync_shape]. *)
Lemma optimize_table_sync_shape table_name final cleanup (w : World Server) :
  sync_shape (optimize_query table_name final cleanup)
    (fst (fst (optimize_table_sync ch table_name final cleanup w)))
    (snd (optimize_table_sync ch table_name final cleanup w)).
Proof.
  unfold optimize_table_sync, check_background_pool_status, print_pool_status,
    bind, try_except, call, lift, emit, time, Py.sample, ret.
  destruct (query_pool ch (server w)) as [[[a p] | x] s1]; cbn.
  2: { apply first_poll_raised. }
  rewrite pool_status_of_value. cbn.
  destruct (command ch "SET alter_sync = 1" s1) as [[[] | x] s2]; cbn.
  2: { apply set_raised. }
  destruct (command ch (optimize_query table_name final cleanup) s2)
    as [[[] | [msg | msg]] s3]; cbn.
  - destruct (query_pool ch s3) as [[[a' p'] | [msg | msg]] s4]; cbn.
    + rewrite pool_status_of_value. cbn. apply completed.
    + apply second_poll_failed.
    + apply second_poll_interrupted.
  - apply optimize_failed.
  - apply optimize_interrupted.
Qed.

End SyncShapes.

Section SyncInvariants.

Variable Server : Type.
Variable ch : Client Server.
Local Open Scope string_scope.

Lemma commands_sent_head table_name final cleanup st tail :
  commands_sent (optimize_query table_name final cleanup) (sync_head st ++ tail)
  = commands_sent (optimize_query table_name final cleanup) tail.
Proof.
  unfold commands_sent, sync_head. cbn [app filter].
  rewrite optimize_query_not_set. reflexivity.
Qed.

Lemma commands_sent_here q tail :
  commands_sent q (Command q :: tail) = S (commands_sent q tail).
Proof.
  unfold commands_sent. cbn [filter]. rewrite String.eqb_refl. reflexivity.
Qed.

End SyncInvariants.

(** X1: in every run of [optimize_table_sync], whatever the server does,
    the OPTIMIZE text is sent at most once; when it is sent, the run began
    with the poll, the display of the status and [SET alter_sync = 1], in
    that order, right before it; and the pool is polled at most twice. *)
Theorem optimize_sent_at_most_once_after_set
    (Server : Type) (ch : Client Server)
    (table_name : option string) (final cleanup : bool) (w : World Server) :
  let q := optimize_query table_name final cleanup in
  let evs := snd (optimize_table_sync ch table_name final cleanup w) in
  (polls evs <= 2)%nat
  /\ ((commands_sent q evs = 0%nat
       /\ (evs = [PoolQuery] \/ exists st, evs = sync_head st))
      \/ (exists st rest,
            evs = [PoolQuery; ShowPoolStatus st;
                   Command "SET alter_sync = 1"; Command q] ++ rest
            /\ commands_sent q rest = 0%nat
            /\ commands_sent q evs = 1%nat)).
Proof.
  intros q evs.
  pose proof (optimize_table_sync_shape ch table_name final cleanup w) as H.
  fold q evs in H.
  destruct H; (split; [cbn; lia |]).
  - left. split; [reflexivity | now left].
  - left. split; [| right; eauto].
    unfold q. rewrite <- (app_nil_r (sync_head st)), commands_sent_head.
    reflexivity.
  - right. eexists st, _. split; [reflexivity |]. split; [reflexivity |].
    unfold q. rewrite commands_sent_head, commands_sent_here. reflexivity.
  - right. eexists st, _. split; [reflexivity |]. split; [reflexivity |].
    unfold q. rewrite commands_sent_head, commands_sent_here. reflexivity.
  - right. eexists st, _. split; [reflexivity |]. split; [reflexivity |].
    unfold q. rewrite commands_sent_head, commands_sent_here. reflexivity.
  - right. eexists st, _. split; [reflexivity |]. split; [reflexivity |].
    unfold q. rewrite commands_sent_head, commands_sent_here. reflexivity.
  - right. eexists st, _. split; [reflexivity |]. split; [reflexivity |].
    unfold q. rewrite commands_sent_head, commands_sent_here. reflexivity.
Qed.

(** X2: what [optimize_table_sync] returns tells what it reported: [True]
    comes only after the completion report and a second poll whose status
    was shown; [False] comes only after the OPTIMIZE text was sent and with
    a failure report as the last thing done; and a run that raises has
    reported no failure. *)
Theorem optimize_result_matches_report
    (Server : Type) (ch : Client Server)
    (table_name : option string) (final cleanup : bool) (w : World Server) :
  let q := optimize_query table_name final cleanup in
  let res := fst (fst (optimize_table_sync ch table_name final cleanup w)) in
  let evs := snd (optimize_table_sync ch table_name final cleanup w) in
  (res = Py.Returned true ->
     exists st elapsed st',
       evs = sync_head st ++ [Command q; ShowCompleted elapsed; PoolQuery;
                              ShowPoolStatus st'])
  /\ (res = Py.Returned false ->
        exists pre elapsed msg,
          evs = pre ++ [ShowFailed elapsed msg] /\ In (Command q) pre)
  /\ (forall x, res = Py.Raised x ->
        forall elapsed msg, ~ In (ShowFailed elapsed msg) evs).
Proof.
  intros q res evs.
  pose proof (optimize_table_sync_shape ch table_name final cleanup w) as H.
  fold q res evs in H.
  destruct H; (split; [| split]); try (intros E; discriminate E);
    try (intros y E; discriminate E).
  - intros y _ elapsed msg [E | []]. discriminate E.
  - intros y _ elapsed msg Hin. cbn in Hin.
    repeat (destruct Hin as [E | Hin]; [discriminate E |]). exact Hin.
  - intros _. exists (sync_head st ++ [Command q]), elapsed, msg.
    split; [rewrite <- app_assoc; reflexivity |].
    apply in_or_app. right. now left.
  - intros y _ elapsed msg' Hin. cbn in Hin.
    repeat (destruct Hin as [E | Hin]; [discriminate E |]). exact Hin.
  - intros _.
    exists (sync_head st ++ [Command q; ShowCompleted elapsed; PoolQuery]),
      elapsed', msg.
    split; [rewrite <- app_assoc; reflexivity |].
    apply in_or_app. right. now left.
  - intros y _ elapsed' msg' Hin. cbn in Hin.
    repeat (destruct Hin as [E | Hin]; [discriminate E |]). exact Hin.
  - intros _. eauto.
Qed.

Lemma optimize_result_matches_report_witness :
  exists st elapsed st',
    snd (optimize_table_sync Fixtures.healthy_client (Some "chunks"%string)
           true false (Fixtures.world0 0%nat []))
    = sync_head st ++ [Command "OPTIMIZE TABLE chunks FINAL";
                       ShowCompleted elapsed; PoolQuery; ShowPoolStatus st'].
Proof.
  exact (proj1 (optimize_result_matches_report Fixtures.healthy_client
                  (Some "chunks"%string) true false
                  (Fixtures.world0 0%nat [])) eq_refl).
Defined.

(** X3: when the two polls and the two commands succeed, the run returns
    [True]; the elapsed time reported is the difference of the readings
    taken right after and right before the OPTIMIZE command, and the status
    shown last is the one polled after the command. *)
Theorem optimize_completed_run
    (Server : Type) (ch : Client Server)
    (table_name : option string) (final cleanup : bool)
    (w : World Server) a p s1 s2 s3 a' p' s4 :
  query_pool ch (server w) = (Py.Returned (a, p), s1) ->
  command ch "SET alter_sync = 1" s1 = (Py.Returned tt, s2) ->
  command ch (optimize_query table_name final cleanup) s2
    = (Py.Returned tt, s3) ->
  query_pool ch s3 = (Py.Returned (a', p'), s4) ->
  exists st st',
    pool_status_of a p = Py.Returned st
    /\ pool_status_of a' p' = Py.Returned st'
    /\ optimize_table_sync ch table_name final cleanup w
       = (Py.Returned true,
          {| server := s4;
             clock := {| Py.reading := Py.reading (clock w);
                         Py.ticks := S (S (Py.ticks (clock w))) |};
             stdin := stdin w |},
          sync_head st
          ++ [Command (optimize_query table_name final cleanup);
              ShowCompleted (Py.reading (clock w) (S (Py.ticks (clock w)))
                             - Py.reading (clock w) (Py.ticks (clock w)));
              PoolQuery;
              ShowPoolStatus st']).
Proof.
  intros H1 H2 H3 H4.
  eexists. eexists.
  split; [apply pool_status_of_value |].
  split; [apply pool_status_of_value |].
  unfold optimize_table_sync, check_background_pool_status, print_pool_status,
    bind, try_except, call, lift, emit, time, Py.sample, ret.
  rewrite H1. cbn. rewrite pool_status_of_value. cbn.
  rewrite H2. cbn. rewrite H3. cbn. rewrite H4. cbn.
  rewrite pool_status_of_value. cbn. reflexivity.
Qed.

Lemma optimize_completed_run_witness :
  exists w',
    optimize_table_sync Fixtures.healthy_client (Some "chunks"%string)
      true false (Fixtures.world0 0%nat [])
    = (Py.Returned true, w',
       [PoolQuery; ShowPoolStatus (mkPoolStatus 0 16 16 0 false);
        Command "SET alter_sync = 1"; Command "OPTIMIZE TABLE chunks FINAL";
        ShowCompleted (3 - 0); PoolQuery;
        ShowPoolStatus (mkPoolStatus 2 16 14 (25 # 2) false)])
    /\ server w' = 2%nat.
Proof.
  destruct (@optimize_completed_run nat Fixtures.healthy_client
              (Some "chunks"%string) true false (Fixtures.world0 0%nat [])
              0%Z 16%Z 0%nat 1%nat 2%nat 2%Z 16%Z 2%nat
              eq_refl eq_refl eq_refl eq_refl)
    as (st & st' & E1 & E2 & E).
  injection E1 as <-. injection E2 as <-.
  eexists. split; [exact E | reflexivity].
Defined.

(** X4: the handler of [optimize_table_sync] also covers the poll made
    after a successful command: when that poll raises an exception, the run
    has reported the completion, then reports an OPTIMIZE failure with the
    poll's error as the reason, and returns [False]. *)
Theorem optimize_late_poll_failure_reported_as_failure
    (Server : Type) (ch : Client Server)
    (table_name : option string) (final cleanup : bool)
    (w : World Server) a p s1 s2 s3 s4 msg :
  query_pool ch (server w) = (Py.Returned (a, p), s1) ->
  command ch "SET alter_sync = 1" s1 = (Py.Returned tt, s2) ->
  command ch (optimize_query table_name final cleanup) s2
    = (Py.Returned tt, s3) ->
  query_pool ch s3 = (Py.Raised (Py.Exn msg), s4) ->
  exists st w',
    pool_status_of a p = Py.Returned st
    /\ optimize_table_sync ch table_name final cleanup w
    = (Py.Returned false, w',
       sync_head st
       ++ [Command (optimize_query table_name final cleanup);
           ShowCompleted (Py.reading (clock w) (S (Py.ticks (clock w)))
                          - Py.reading (clock w) (Py.ticks (clock w)));
           PoolQuery;
           ShowFailed (Py.reading (clock w) (S (S (Py.ticks (clock w))))
                       - Py.reading (clock w) (Py.ticks (clock w))) msg])
    /\ server w' = s4.
Proof.
  intros H1 H2 H3 H4.
  eexists. eexists.
  split; [apply pool_status_of_value |].
  unfold optimize_table_sync, check_background_pool_status, print_pool_status,
    bind, try_except, call, lift, emit, time, Py.sample, ret.
  rewrite H1. cbn. rewrite pool_status_of_value. cbn.
  rewrite H2. cbn. rewrite H3. cbn. rewrite H4. cbn.
  split; reflexivity.
Qed.

Lemma optimize_late_poll_failure_reported_as_failure_witness :
  exists w',
    optimize_table_sync Servers.flaky_client (Some "chunks"%string)
      true false (Fixtures.world0 0%nat [])
    = (Py.Returned false, w',
       [PoolQuery; ShowPoolStatus (mkPoolStatus 12 16 4 75 false);
        Command "SET alter_sync = 1"; Command "OPTIMIZE TABLE chunks FINAL";
        ShowCompleted (3 - 0); PoolQuery;
        ShowFailed (6 - 0) "Connection reset"]).
Proof.
  destruct (@optimize_late_poll_failure_reported_as_failure nat
              Servers.flaky_client (Some "chunks"%string) true false
              (Fixtures.world0 0%nat [])
              12%Z 16%Z 0%nat 1%nat 2%nat 2%nat "Connection reset"%string
              eq_refl eq_refl eq_refl eq_refl)
    as (st & w' & Est & E & _).
  injection Est as <-. exists w'. exact E.
Defined.

(** X5: what fails before the [try] is not handled: when the first poll
    raises, the run raises the same error having sent no command; when
    [SET alter_sync = 1] raises, the run raises the same error and the
    OPTIMIZE text is never sent; in both cases nothing is reported and the
    clock is not read. *)
Theorem optimize_errors_before_try_propagate
    (Server : Type) (ch : Client Server)
    (table_name : option string) (final cleanup : bool) (w : World Server) :
  (forall x s1,
     query_pool ch (server w) = (Py.Raised x, s1) ->
     optimize_table_sync ch table_name final cleanup w
     = (Py.Raised x,
        {| server := s1; clock := clock w; stdin := stdin w |},
        [PoolQuery]))
  /\ (forall a p s1 x s2,
        query_pool ch (server w) = (Py.Returned (a, p), s1) ->
        command ch "SET alter_sync = 1" s1 = (Py.Raised x, s2) ->
        exists st,
          pool_status_of a p = Py.Returned st
          /\ optimize_table_sync ch table_name final cleanup w
             = (Py.Raised x,
                {| server := s2; clock := clock w; stdin := stdin w |},
                sync_head st)
          /\ commands_sent (optimize_query table_name final cleanup)
               (sync_head st) = 0%nat).
Proof.
  split.
  - intros x s1 H1.
    unfold optimize_table_sync, check_background_pool_status, bind, call.
    rewrite H1. reflexivity.
  - intros a p s1 x s2 H1 H2. eexists.
    split; [apply pool_status_of_value |]. split.
    + unfold optimize_table_sync, check_background_pool_status,
        print_pool_status, bind, try_except, call, lift, emit, time, ret.
      rewrite H1. cbn. rewrite pool_status_of_value. cbn.
      rewrite H2. reflexivity.
    + unfold commands_sent, sync_head. cbn [filter].
      rewrite optimize_query_not_set. reflexivity.
Qed.

Lemma optimize_errors_before_try_propagate_witness :
  optimize_table_sync Servers.down_client (Some "chunks"%string) true false
    (Fixtures.world0 tt [])
  = (Py.Raised (Py.Exn "Connection refused"), Fixtures.world0 tt [],
     [PoolQuery])
  /\ optimize_table_sync Servers.readonly_client (Some "chunks"%string)
       true false (Fixtures.world0 tt [])
     = (Py.Raised (Py.Exn "Code: 164. READONLY"), Fixtures.world0 tt [],
        sync_head (mkPoolStatus 3 16 13 (75 # 4) false)).
Proof.
  split.
  - exact (proj1 (optimize_errors_before_try_propagate Servers.down_client
                    (Some "chunks"%string) true false
                    (Fixtures.world0 tt []))
                 (Py.Exn "Connection refused") tt eq_refl).
  - destruct (proj2 (optimize_errors_before_try_propagate
                       Servers.readonly_client (Some "chunks"%string)
                       true false (Fixtures.world0 tt []))
                    3%Z 16%Z tt (Py.Exn "Code: 164. READONLY") tt
                    eq_refl eq_refl) as (st & Est & E & _).
    injection Est as <-. exact E.
Defined.

(** X6: the handler catches [Exception] only: when the OPTIMIZE command is
    ended by something else (an interrupt from the keyboard), the run raises
    it, with no failure report and no second poll; the clock has been read
    once. *)
Theorem optimize_interrupt_propagates
    (Server : Type) (ch : Client Server)
    (table_name : option string) (final cleanup : bool)
    (w : World Server) a p s1 s2 s3 msg :
  query_pool ch (server w) = (Py.Returned (a, p), s1) ->
  command ch "SET alter_sync = 1" s1 = (Py.Returned tt, s2) ->
  command ch (optimize_query table_name final cleanup) s2
    = (Py.Raised (Py.BaseExn msg), s3) ->
  exists st,
    pool_status_of a p = Py.Returned st
    /\ optimize_table_sync ch table_name final cleanup w
       = (Py.Raised (Py.BaseExn msg),
          {| server := s3;
             clock := {| Py.reading := Py.reading (clock w);
                         Py.ticks := S (Py.ticks (clock w)) |};
             stdin := stdin w |},
          sync_head st ++ [Command (optimize_query table_name final cleanup)]).
Proof.
  intros H1 H2 H3. eexists.
  split; [apply pool_status_of_value |].
  unfold optimize_table_sync, check_background_pool_status, print_pool_status,
    bind, try_except, call, lift, emit, time, Py.sample, ret.
  rewrite H1. cbn. rewrite pool_status_of_value. cbn.
  rewrite H2. cbn. rewrite H3. cbn. reflexivity.
Qed.

Lemma optimize_interrupt_propagates_witness :
  exists w',
    optimize_table_sync Servers.interrupted_client (Some "chunks"%string)
      true false (Fixtures.world0 tt [])
    = (Py.Raised (Py.BaseExn "KeyboardInterrupt"), w',
       [PoolQuery; ShowPoolStatus (mkPoolStatus 3 16 13 (75 # 4) false);
        Command "SET alter_sync = 1"; Command "OPTIMIZE TABLE chunks FINAL"]).
Proof.
  destruct (@optimize_interrupt_propagates unit Servers.interrupted_client
              (Some "chunks"%string) true false (Fixtures.world0 tt [])
              3%Z 16%Z tt tt tt "KeyboardInterrupt"%string
              eq_refl eq_refl eq_refl) as (st & Est & E).
  injection Est as <-. eexists. exact E.
Defined.

(** ** Every run of [main] *)

Section MainInvariants.

Variable Server : Type.
Variables strip lower : string -> string.
Variable ch : Client Server.
Local Open Scope string_scope.

(** Everything a run of [optimize_table_sync] does is of one of six kinds. *)
Lemma sync_shape_Forall (Q : event -> Prop) q o evs :
  sync_shape q o evs ->
  Q PoolQuery -> (forall st, Q (ShowPoolStatus st)) ->
  Q (Command "SET alter_sync = 1") -> Q (Command q) ->
  (forall elapsed, Q (ShowCompleted elapsed)) ->
  (forall elapsed msg, Q (ShowFailed elapsed msg)) ->
  Forall Q evs.
Proof.
  intros H Hp Hs Hset Hq Hc Hf.
  destruct H; unfold sync_head; cbn [app]; repeat constructor; auto.
Qed.

Lemma keeps_time : keeps_stdin (@time Server).
Proof. intros w. reflexivity. Qed.

Lemma keeps_try_except {A} (body : M Server A) (handler : string -> M Server A) :
  keeps_stdin body -> (forall msg, keeps_stdin (handler msg)) ->
  keeps_stdin (try_except body handler).
Proof.
  intros Hb Hh w. unfold try_except.
  specialize (Hb w). destruct (body w) as [[[a | [msg | msg]] w1] e1]; cbn in *.
  - exact Hb.
  - specialize (Hh msg w1). destruct (handler msg w1) as [[o2 w2] e2]; cbn in *.
    congruence.
  - exact Hb.
Qed.

(** [optimize_table_sync] reads no typed line. *)
Lemma optimize_table_sync_keeps table_name final cleanup :
  keeps_stdin (optimize_table_sync ch table_name final cleanup).
Proof.
  unfold optimize_table_sync.
  apply keeps_bind; [apply check_background_pool_status_keeps |].
  intros status. apply keeps_bind; [apply keeps_emit |].
  intros _. apply keeps_bind; [apply keeps_call |].
  intros _. apply keeps_bind; [apply keeps_time |].
  intros start_time. apply keeps_try_except.
  - apply keeps_bind; [apply keeps_call |].
    intros _. apply keeps_bind; [apply keeps_time |].
    intros t. apply keeps_bind; [apply keeps_emit |].
    intros _. apply keeps_bind; [apply check_background_pool_status_keeps |].
    intros st. apply keeps_bind; [apply keeps_emit |].
    intros _. apply keeps_ret.
  - intros msg. apply keeps_bind; [apply keeps_time |].
    intros t. apply keeps_bind; [apply keeps_emit |].
    intros _. apply keeps_ret.
Qed.

(** A step that reads no typed line can be skipped when a property of the
    events is stated from the lines still to be typed. *)
Lemma Forall_bind_keeps {A B} (P : list string -> event -> Prop)
    (Q : event -> Prop) (m : M Server A) (f : A -> M Server B) :
  keeps_stdin m -> emits Q m ->
  (forall typed e, Q e -> P typed e) ->
  (forall a w1, Forall (P (stdin w1)) (snd (f a w1))) ->
  forall w, Forall (P (stdin w)) (snd (bind m f w)).
Proof.
  intros K E HP F w. unfold bind.
  specialize (K w). specialize (E w).
  destruct (m w) as [[[a | x] w1] e1]; cbn in *.
  - specialize (F a w1). destruct (f a w1) as [[o w2] e2]; cbn in *.
    rewrite <- K. apply Forall_app. split; [| exact F].
    eapply Forall_impl; [apply HP | exact E].
  - eapply Forall_impl; [apply HP | exact E].
Qed.

Lemma check_background_pool_status_quiet :
  emits quiet (check_background_pool_status ch).
Proof.
  unfold check_background_pool_status.
  apply emits_bind; [apply emits_call; split; intros ? E; discriminate E |].
  intros row. apply emits_lift.
Qed.

Lemma check_merge_operations_quiet table_name :
  emits quiet (check_merge_operations ch table_name).
Proof.
  unfold check_merge_operations. apply emits_bind.
  - destruct (Py.truthy table_name); apply emits_call;
      split; intros ? E; discriminate E.
  - intros [| r rows]; apply emits_emit; split; intros ? E; discriminate E.
Qed.

(** The steps of [main] before the prompts read no typed line, send no
    command and show no prompt; a property of the events that holds of such
    steps and of what the prompts lead to holds of the whole run. *)
Lemma after_prelude (P : list string -> event -> Prop) TABLE :
  (forall typed e, silent e -> no_prompt e -> P typed e) ->
  (forall w1, Forall (P (stdin w1)) (snd (proceed strip lower ch TABLE w1))) ->
  forall w, Forall (P (stdin w)) (snd (main strip lower ch TABLE w)).
Proof.
  intros HP Hrest. unfold main.
  apply Forall_bind_keeps with (Q := quiet);
    [apply check_background_pool_status_keeps
    | apply check_background_pool_status_quiet
    | intros typed e [H1 H2]; apply HP; assumption |].
  intros status w1. apply Forall_bind_keeps with (Q := quiet);
    [intros w0; reflexivity
    | apply emits_emit; split; intros ? E; discriminate E
    | intros typed e [H1 H2]; apply HP; assumption |].
  intros _ w2. apply Forall_bind_keeps with (Q := quiet);
    [apply check_merge_operations_keeps
    | apply check_merge_operations_quiet
    | intros typed e [H1 H2]; apply HP; assumption |].
  intros _ w3. apply Hrest.
Qed.

End MainInvariants.

Section Prompts.

Variable Server : Type.
Variables strip lower : string -> string.
Variable ch : Client Server.
Local Open Scope string_scope.

(** The two prompts: a command is sent only after a yes. *)
Lemma proceed_answered TABLE (w : World Server) :
  Forall (answered strip lower (stdin w))
      (snd (proceed strip lower ch TABLE w)).
Proof.
  unfold proceed.
  unfold bind at 1. unfold input at 1.
  destruct (stdin w) as [| line1 typed] eqn:Ew; cbn [snd].
  { repeat constructor. intros sql E; discriminate E. }
  set (w1 := {| server := server w; clock := clock w; stdin := typed |}).
  destruct (Py.str_in (lower (strip line1)) ["yes"; "y"]) eqn:R1.
  - match goal with |- context [bind ?m ?f ?x] =>
      destruct (bind m f x) as [[o w2] e2] end.
    cbn [snd]. apply Forall_forall. intros e _ sql _.
    exists line1, typed. split; [reflexivity | now left].
  - unfold bind at 1. unfold input at 1. subst w1. cbn [stdin].
    destruct typed as [| line2 rest]; cbn [snd app].
    { repeat constructor; intros sql E; discriminate E. }
    destruct (Py.str_in (lower (strip line2)) ["yes"; "y"]) eqn:R2.
    + match goal with |- context [bind ?m ?f ?x] =>
        destruct (bind m f x) as [[o w2] e2] end.
      cbn [snd]. apply Forall_forall. intros e _ sql _.
      exists line1, (line2 :: rest). split; [reflexivity |].
      right. exists line2, rest. auto.
    + cbn. repeat constructor; intros sql E; discriminate E.
Qed.

End Prompts.

(** X7: [main] sends no command of any kind to the server (neither
    [SET alter_sync = 1] nor an OPTIMIZE text) unless one of the first two
    typed lines is a yes: with no line typed, or with answers that are not
    yes or y, the server only sees the two read-only queries. *)
Theorem main_sends_commands_only_after_a_yes
    (Server : Type) (strip lower : string -> string)
    (ch : Client Server) (TABLE : option string)
    (w : World Server) (sql : string) :
  In (Command sql) (snd (main strip lower ch TABLE w)) ->
  some_answer_accepted strip lower (stdin w).
Proof.
  intros Hin.
  assert (H : Forall (answered strip lower (stdin w))
      (snd (main strip lower ch TABLE w))).
  { apply after_prelude.
    - intros typed e Hs _ cmd E. destruct (Hs cmd E).
    - intros w1. apply proceed_answered. }
  rewrite Forall_forall in H. exact (H _ Hin sql eq_refl).
Qed.

Lemma main_sends_commands_only_after_a_yes_witness :
  In (Command "SET alter_sync = 1")
     (snd (main Fixtures.ascii_strip Fixtures.ascii_lower
             Fixtures.healthy_client (Some "chunks"%string)
             (Fixtures.world0 0%nat ["Y"]%string)))
  /\ some_answer_accepted Fixtures.ascii_strip Fixtures.ascii_lower
      ["Y"]%string.
Proof.
  assert (Hin : In (Command "SET alter_sync = 1")
     (snd (main Fixtures.ascii_strip Fixtures.ascii_lower
             Fixtures.healthy_client (Some "chunks"%string)
             (Fixtures.world0 0%nat ["Y"]%string)))).
  { vm_compute. repeat (first [left; reflexivity | right]). }
  split; [exact Hin |].
  exact (@main_sends_commands_only_after_a_yes nat
           Fixtures.ascii_strip Fixtures.ascii_lower Fixtures.healthy_client
           (Some "chunks"%string) (Fixtures.world0 0%nat ["Y"]%string)
           "SET alter_sync = 1"%string Hin).
Defined.

Section FirstAnswer.

Variable Server : Type.
Variables strip lower : string -> string.
Variable ch : Client Server.
Local Open Scope string_scope.

Lemma optimize_table_sync_emits (Q : event -> Prop) table_name final cleanup :
  Q PoolQuery -> (forall st, Q (ShowPoolStatus st)) ->
  Q (Command "SET alter_sync = 1") ->
  Q (Command (optimize_query table_name final cleanup)) ->
  (forall elapsed, Q (ShowCompleted elapsed)) ->
  (forall elapsed msg, Q (ShowFailed elapsed msg)) ->
  emits Q (optimize_table_sync ch table_name final cleanup).
Proof.
  intros Hp Hs Hset Hq Hc Hf w.
  eapply sync_shape_Forall; eauto using optimize_table_sync_shape.
Qed.

Lemma proceed_final_only TABLE (w : World Server) :
  Forall (final_only strip lower TABLE (stdin w))
      (snd (proceed strip lower ch TABLE w)).
Proof.
  unfold proceed.
  unfold bind at 1. unfold input at 1.
  destruct (stdin w) as [| line1 typed] eqn:Ew; cbn [snd].
  { constructor; [| constructor]. intros l r E; discriminate E. }
  set (w1 := {| server := server w; clock := clock w; stdin := typed |}).
  destruct (Py.str_in (lower (strip line1)) ["yes"; "y"]) eqn:R1.
  - assert (Q : forall e,
        (e <> Input prompt_cleanup /\ sync_event TABLE true false e) ->
        final_only strip lower TABLE (line1 :: typed) e)
      by (intros e He l r _ _; exact He).
    set (Q' := fun e => e <> Input prompt_cleanup
                        /\ sync_event TABLE true false e).
    assert (Hsync : emits Q' (optimize_table_sync ch TABLE true false)).
    { apply optimize_table_sync_emits; unfold Q'; intros;
        (split; [discriminate |]); intros ? E;
        try discriminate E; injection E as <-; auto. }
    pose proof (@emits_bind Server _ _ Q'
                  (optimize_table_sync ch TABLE true false)
                  (fun _ => ret tt) Hsync (fun _ => emits_ret _ tt) w1) as H.
    unfold Q' in H.
    destruct (bind (optimize_table_sync ch TABLE true false)
                   (fun _ => ret tt) w1) as [[o w2] e2].
    cbn [snd] in *. constructor.
    + apply Q. split; [discriminate | intros ? E; discriminate E].
    + eapply Forall_impl; [apply Q | exact H].
  - apply Forall_forall. intros e _ l r E A.
    injection E as <- <-. unfold accepted in A. congruence.
Qed.

End FirstAnswer.

(** X8: when the first typed line is a yes (FINAL accepted), [main] never
    shows the CLEANUP prompt, and the only commands it can send are
    [SET alter_sync = 1] and the OPTIMIZE text with FINAL and without
    CLEANUP. *)
Theorem main_yes_runs_final_only
    (Server : Type) (strip lower : string -> string)
    (ch : Client Server) (TABLE : option string)
    (w : World Server) (line1 : string) (rest : list string) :
  stdin w = line1 :: rest ->
  accepted strip lower line1 = true ->
  ~ In (Input prompt_cleanup) (snd (main strip lower ch TABLE w))
  /\ forall sql, In (Command sql) (snd (main strip lower ch TABLE w)) ->
       sql = "SET alter_sync = 1"%string
       \/ sql = optimize_query TABLE true false.
Proof.
  intros Ew A.
  assert (H : Forall (final_only strip lower TABLE (stdin w))
      (snd (main strip lower ch TABLE w))).
  { apply after_prelude.
    - intros typed e Hs Hn l r _ _. split.
      + apply Hn.
      + intros sql E. destruct (Hs sql E).
    - intros w1. apply proceed_final_only. }
  rewrite Forall_forall in H. split.
  - intros Hin. destruct (H _ Hin line1 rest Ew A) as [N _]. now apply N.
  - intros sql Hin. destruct (H _ Hin line1 rest Ew A) as [_ S].
    exact (S sql eq_refl).
Qed.

Lemma main_yes_runs_final_only_witness :
  ~ In (Input prompt_cleanup)
       (snd (main Fixtures.ascii_strip Fixtures.ascii_lower
               Fixtures.healthy_client (Some "chunks"%string)
               (Fixtures.world0 0%nat [" Yes"; "yes"]%string)))
  /\ In (Command "OPTIMIZE TABLE chunks FINAL")
        (snd (main Fixtures.ascii_strip Fixtures.ascii_lower
                Fixtures.healthy_client (Some "chunks"%string)
                (Fixtures.world0 0%nat [" Yes"; "yes"]%string))).
Proof.
  split.
  - exact (proj1 (@main_yes_runs_final_only nat
                    Fixtures.ascii_strip Fixtures.ascii_lower
                        Fixtures.healthy_client
                    (Some "chunks"%string)
                    (Fixtures.world0 0%nat [" Yes"; "yes"]%string)
                    " Yes"%string ["yes"%string] eq_refl eq_refl)).
  - vm_compute. repeat (first [left; reflexivity | right]).
Defined.

Section MainRuns.

Variable Server : Type.
Variables strip lower : string -> string.
Variable ch : Client Server.

(** [main] up to the first prompt, when the two queries succeed. *)
Lemma main_reaches_prompt TABLE (w : World Server) a p s1 rows s2 :
  query_pool ch (server w) = (Py.Returned (a, p), s1) ->
  query_merges ch (merges_filter TABLE) s1 = (Py.Returned rows, s2) ->
  exists st,
    pool_status_of a p = Py.Returned st
    /\ main strip lower ch TABLE w
       = match proceed strip lower ch TABLE
                 {| server := s2; clock := clock w; stdin := stdin w |} with
         | (o, w', evs) => (o, w', main_head st TABLE rows ++ evs)
         end.
Proof.
  intros H1 H2. eexists. split; [apply pool_status_of_value |].
  unfold main, check_background_pool_status, print_pool_status,
    check_merge_operations.
  unfold bind at 1. unfold bind at 1. unfold call at 1. rewrite H1.
  unfold lift at 1. rewrite pool_status_of_value.
  unfold bind at 1. unfold emit at 1.
  unfold bind at 1. unfold bind at 1.
  unfold merges_filter in H2. unfold main_head, merges_filter.
  destruct (Py.truthy TABLE); unfold call at 1; cbn [server];
    rewrite H2; cbn [clock stdin];
    destruct rows as [| r rows]; unfold emit at 1, merges_display;
    destruct (proceed strip lower ch TABLE _) as [[o w'] evs]; reflexivity.
Qed.

End MainRuns.

(** X9: when the two queries of [main] succeed and both prompts are
    answered by something else than yes or y, the run returns after showing
    that the operation is cancelled: two lines were read, no command was
    sent and the server is left as the merges query left it. *)
Theorem main_cancelled_run
    (Server : Type) (strip lower : string -> string)
    (ch : Client Server) (TABLE : option string)
    (w : World Server) a p s1 rows s2 line1 line2 rest :
  query_pool ch (server w) = (Py.Returned (a, p), s1) ->
  query_merges ch (merges_filter TABLE) s1 = (Py.Returned rows, s2) ->
  stdin w = line1 :: line2 :: rest ->
  accepted strip lower line1 = false -> accepted strip lower line2 = false ->
  exists st,
    pool_status_of a p = Py.Returned st
    /\ main strip lower ch TABLE w
       = (Py.Returned tt,
          {| server := s2; clock := clock w; stdin := rest |},
          main_head st TABLE rows
          ++ [Input prompt_final; Input prompt_cleanup; ShowCancelled]).
Proof.
  intros H1 H2 Ew A1 A2.
  destruct (main_reaches_prompt strip lower ch TABLE w H1 H2) as (st & Est & E).
  exists st. split; [exact Est |]. rewrite E.
  unfold proceed, bind, input, emit. cbn [stdin]. rewrite Ew.
  unfold accepted in A1, A2. rewrite A1. cbn [stdin]. rewrite A2.
  reflexivity.
Qed.

Lemma main_cancelled_run_witness :
  main Fixtures.ascii_strip Fixtures.ascii_lower
      Fixtures.healthy_client (Some "chunks"%string)
    (Fixtures.world0 0%nat ["no"; "nope"; "yes"]%string)
  = (Py.Returned tt, Fixtures.world0 0%nat ["yes"%string],
     [PoolQuery; ShowPoolStatus (mkPoolStatus 0 16 16 0 false);
      MergesQuery (Some "chunks"%string); ShowNoMerges;
      Input prompt_final; Input prompt_cleanup; ShowCancelled]).
Proof.
  destruct (@main_cancelled_run nat
              Fixtures.ascii_strip Fixtures.ascii_lower Fixtures.healthy_client
              (Some "chunks"%string)
              (Fixtures.world0 0%nat ["no"; "nope"; "yes"]%string)
              0%Z 16%Z 0%nat [] 0%nat "no"%string "nope"%string
              ["yes"%string] eq_refl eq_refl eq_refl eq_refl eq_refl)
    as (st & Est & E).
  injection Est as <-. exact E.
Defined.

(** X10: when the typed lines run out, [main] ends with [EOFError] and has
    sent no command: at the first prompt if nothing was typed, at the
    CLEANUP prompt if the only line typed declined FINAL. *)
Theorem main_out_of_input_raises
    (Server : Type) (strip lower : string -> string)
    (ch : Client Server) (TABLE : option string)
    (w : World Server) a p s1 rows s2 :
  query_pool ch (server w) = (Py.Returned (a, p), s1) ->
  query_merges ch (merges_filter TABLE) s1 = (Py.Returned rows, s2) ->
  exists st,
    pool_status_of a p = Py.Returned st
    /\ (stdin w = [] ->
        main strip lower ch TABLE w
        = (Py.Raised (Py.Exn "EOFError"),
           {| server := s2; clock := clock w; stdin := [] |},
           main_head st TABLE rows ++ [Input prompt_final]))
    /\ (forall line1,
          stdin w = [line1] -> accepted strip lower line1 = false ->
          main strip lower ch TABLE w
          = (Py.Raised (Py.Exn "EOFError"),
             {| server := s2; clock := clock w; stdin := [] |},
             main_head st TABLE rows
             ++ [Input prompt_final; Input prompt_cleanup])).
Proof.
  intros H1 H2.
  destruct (main_reaches_prompt strip lower ch TABLE w H1 H2) as (st & Est & E).
  exists st. split; [exact Est |]. split.
  - intros Ew. rewrite E.
    unfold proceed, bind, input. cbn [stdin]. rewrite Ew. reflexivity.
  - intros line1 Ew A1. rewrite E.
    unfold proceed, bind, input. cbn [stdin]. rewrite Ew.
    unfold accepted in A1. rewrite A1. reflexivity.
Qed.

Lemma main_out_of_input_raises_witness :
  main Fixtures.ascii_strip Fixtures.ascii_lower
      Fixtures.healthy_client None (Fixtures.world0 0%nat ["n"%string])
  = (Py.Raised (Py.Exn "EOFError"), Fixtures.world0 0%nat [],
     [PoolQuery; ShowPoolStatus (mkPoolStatus 0 16 16 0 false);
      MergesQuery None; ShowNoMerges;
      Input prompt_final; Input prompt_cleanup]).
Proof.
  destruct (@main_out_of_input_raises nat
              Fixtures.ascii_strip Fixtures.ascii_lower
                  Fixtures.healthy_client None
              (Fixtures.world0 0%nat ["n"%string])
              0%Z 16%Z 0%nat [] 0%nat eq_refl eq_refl)
    as (st & Est & _ & E).
  injection Est as <-. exact (E "n"%string eq_refl eq_refl).
Defined.

(** ** More on the pool status *)


(** X12: for a positive pool size, [is_full] holds exactly when the active
    tasks are at least as many as the threads, and then the utilisation
    shown is at least 100; below 100 the pool is never reported full.  The
    converse fails because of the rounding: 99999 tasks on 100000 threads
    show 100 and a pool that is not full. *)
Theorem pool_full_implies_utilization_100 (a p : Z) :
  (0 < p)%Z ->
  exists s,
    pool_status_of a p = Py.Returned s
    /\ (is_full s = true <-> (p <= a)%Z)
    /\ (is_full s = true -> (100 <= utilization_pct s)%Q)
    /\ ((utilization_pct s < 100)%Q -> is_full s = false)
    /\ pool_status_of 99999 100000
       = Py.Returned (mkPoolStatus 99999 100000 1 100 false).
Proof.
  intros Hp. eexists. split; [apply pool_status_of_pos; exact Hp |].
  cbn [is_full utilization_pct].
  assert (Hfull : (p - a <=? 0)%Z = true ->
                  (100 <= Py.round2
                            (Py.fmul (Py.binary64 (inject_Z a / inject_Z p))
                               100))%Q).
  { intros H. apply Z.leb_le in H.
    assert (Hp' : (0 < inject_Z p)%Q)
      by (change 0%Q with (inject_Z 0); rewrite <- Zlt_Qlt; exact Hp).
    assert (Hap : (inject_Z p <= inject_Z a)%Q) by (rewrite <- Zle_Qle; lia).
    assert (L : (1 <= inject_Z a / inject_Z p)%Q).
    { apply Qle_shift_div_l; [exact Hp' | lra]. }
    rewrite <- round2_100 at 1. apply round2_mono.
    rewrite <- fmul_1_100 at 1. apply fmul_mono_l; [discriminate |].
    rewrite <- binary64_1 at 1. apply binary64_mono. exact L. }
  split; [| split; [exact Hfull | split; [| vm_compute; reflexivity]]].
  - rewrite Z.leb_le. lia.
  - intros Hlt. destruct (p - a <=? 0)%Z eqn:E; [| reflexivity].
    specialize (Hfull eq_refl). lra.
Qed.

Lemma pool_full_implies_utilization_100_witness :
  exists s,
    pool_status_of 40 16 = Py.Returned s
    /\ is_full s = true /\ (100 <= utilization_pct s)%Q.
Proof.
  destruct (@pool_full_implies_utilization_100 40 16 eq_refl)
    as (s & E & I & U & _).
  exists s. split; [exact E |].
  assert (F : is_full s = true) by (apply I; lia).
  split; [exact F | exact (U F)].
Defined.

(** X13: for a fixed positive pool size, the utilisation shown never goes
    down when the number of active tasks goes up. *)
Theorem utilization_monotone_in_active_tasks (a a' p : Z) :
  (0 < p)%Z -> (a <= a')%Z ->
  exists s s',
    pool_status_of a p = Py.Returned s
    /\ pool_status_of a' p = Py.Returned s'
    /\ (utilization_pct s <= utilization_pct s')%Q.
Proof.
  intros Hp Ha. eexists. eexists.
  split; [apply pool_status_of_pos; exact Hp |].
  split; [apply pool_status_of_pos; exact Hp |].
  cbn [utilization_pct]. apply round2_mono.
  apply fmul_mono_l; [discriminate |]. apply binary64_mono.
  assert (Hp' : (0 < inject_Z p)%Q)
    by (change 0%Q with (inject_Z 0); rewrite <- Zlt_Qlt; exact Hp).
  assert (Hq : (inject_Z a <= inject_Z a')%Q) by (rewrite <- Zle_Qle; exact Ha).
  assert (Hi : (0 <= / inject_Z p)%Q) by (apply Qlt_le_weak, Qinv_lt_0_compat, Hp').
  unfold Qdiv.
  apply Qmult_le_compat_r; assumption.
Qed.

Lemma utilization_monotone_in_active_tasks_witness :
  exists s s',
    pool_status_of 5 16 = Py.Returned s
    /\ pool_status_of 6 16 = Py.Returned s'
    /\ (utilization_pct s <= utilization_pct s')%Q.
Proof.
  exact (@utilization_monotone_in_active_tasks 5 6 16 eq_refl ltac:(lia)).
Defined.

(** ** More on ingestion *)

Section IngestMore.

Variable encode : list string -> list (list Q).
Variable TENANT_ID : Z.
Variable SOURCE : string.

Local Abbreviation prepare_rows := (IngestChunks.prepare_rows TENANT_ID SOURCE).
Local Abbreviation ingest := (IngestChunks.ingest encode TENANT_ID SOURCE).

Lemma prepare_rows_timestamps pairs : forall i c,
  map ts (fst (prepare_rows i pairs c))
  = map (fun k => Py.reading c (Py.ticks c + k)) (seq 0 (List.length pairs)).
Proof.
  induction pairs as [| [t e] pairs IH]; intros i c; [reflexivity |].
  cbn [IngestChunks.prepare_rows Py.sample].
  match goal with |- context [IngestChunks.prepare_rows _ _ (S i) pairs ?c1] =>
    specialize (IH (S i) c1);
    destruct (IngestChunks.prepare_rows TENANT_ID SOURCE (S i) pairs c1)
      as [rows c2]
  end.
  cbn [fst map List.length seq] in *. rewrite Nat.add_0_r. f_equal.
  rewrite IH. cbn [Py.reading Py.ticks].
  rewrite <- seq_shift, map_map.
  apply map_ext. intros k. f_equal. lia.
Qed.

Lemma prepare_rows_clock pairs : forall i c,
  snd (prepare_rows i pairs c)
  = {| Py.reading := Py.reading c;
       Py.ticks := Py.ticks c + List.length pairs |}.
Proof.
  induction pairs as [| [t e] pairs IH]; intros i c.
  - cbn. rewrite Nat.add_0_r. destruct c; reflexivity.
  - cbn [IngestChunks.prepare_rows Py.sample].
    match goal with |- context [IngestChunks.prepare_rows _ _ (S i) pairs ?c1] =>
      specialize (IH (S i) c1);
      destruct (IngestChunks.prepare_rows TENANT_ID SOURCE (S i) pairs c1)
        as [rows c2]
    end.
    cbn [snd Py.reading Py.ticks List.length] in *. rewrite IH.
    f_equal. lia.
Qed.

Lemma prepare_rows_doc_ids pairs : forall i c,
  Forall (fun r => doc_id r = 1%Z) (fst (prepare_rows i pairs c)).
Proof.
  induction pairs as [| [t e] pairs IH]; intros i c; [constructor |].
  cbn [IngestChunks.prepare_rows Py.sample].
  match goal with |- context [IngestChunks.prepare_rows _ _ (S i) pairs ?c1] =>
    specialize (IH (S i) c1);
    destruct (IngestChunks.prepare_rows TENANT_ID SOURCE (S i) pairs c1)
      as [rows c2]
  end.
  cbn in *. constructor; [reflexivity | exact IH].
Qed.

Lemma filter_none {A} (f : A -> bool) l :
  (forall x, In x l -> f x = false) -> filter f l = [].
Proof.
  induction l as [| x l IH]; intros H; cbn; [reflexivity |].
  rewrite (H x (or_introl eq_refl)). apply IH. intros y Hy. apply H. now right.
Qed.

Lemma filter_all {A} (f : A -> bool) l :
  (forall x, In x l -> f x = true) -> filter f l = l.
Proof.
  induction l as [| x l IH]; intros H; cbn; [reflexivity |].
  rewrite (H x (or_introl eq_refl)). f_equal. apply IH.
  intros y Hy. apply H. now right.
Qed.

End IngestMore.

(** X15: a run reads the clock once per row and never otherwise: the clock
    has advanced by the number of rows; on a clock that never goes back,
    the [ts] values of a batch are non-decreasing in chunk order. *)
Theorem ingest_reads_clock_once_per_row
    (encode : list string -> list (list Q)) (TENANT_ID : Z) (SOURCE : string)
    (texts : list string) (table : Table) (c : Py.Clock) :
  let rows := fst (fst (ingest encode TENANT_ID SOURCE texts table c)) in
  let c' := snd (ingest encode TENANT_ID SOURCE texts table c) in
  Py.ticks c' = (Py.ticks c + List.length rows)%nat
  /\ Py.reading c' = Py.reading c
  /\ ((forall k, (Py.reading c k <= Py.reading c (S k))%Q) ->
      StronglySorted Qle (map ts rows)).
Proof.
  intros rows c'.
  destruct (ingest_rows encode TENANT_ID SOURCE texts table c) as [Er _].
  fold rows in Er.
  assert (Ec : c' = snd (IngestChunks.prepare_rows TENANT_ID SOURCE 0
                           (combine texts (encode texts)) c)).
  { unfold c', IngestChunks.ingest, rows_of.
    destruct (IngestChunks.prepare_rows TENANT_ID SOURCE 0
                (combine texts (encode texts)) c) as [rs c2].
    reflexivity. }
  rewrite prepare_rows_clock in Ec.
  assert (El : List.length rows = List.length (combine texts (encode texts)))
    by (rewrite Er; apply prepare_rows_length).
  split; [rewrite Ec, El; reflexivity |].
  split; [rewrite Ec; reflexivity |].
  intros Hmono.
  assert (Hle : forall j k, (j <= k)%nat -> (Py.reading c j <= Py.reading c k)%Q).
  { intros j k Hjk. induction Hjk as [| k _ IH]; [apply Qle_refl |].
    eapply Qle_trans; [exact IH | apply Hmono]. }
  rewrite Er, prepare_rows_timestamps.
  generalize (List.length (combine texts (encode texts))) as n.
  generalize 0%nat as i.
  intros i n. revert i. induction n as [| n IH]; intros i; cbn; constructor.
  - apply IH.
  - apply Forall_forall. intros x Hx. apply in_map_iff in Hx.
    destruct Hx as (k & <- & Hk). apply in_seq in Hk. apply Hle. lia.
Qed.

Lemma ingest_reads_clock_once_per_row_witness :
  StronglySorted Qle
    (map ts (fst (fst (ingest Fixtures.toy_encode IngestChunks.TENANT_ID
                         IngestChunks.SOURCE IngestChunks.texts
                         Fixtures.table_ab Fixtures.clock0)))).
Proof.
  refine (proj2 (proj2 (@ingest_reads_clock_once_per_row Fixtures.toy_encode
                          IngestChunks.TENANT_ID IngestChunks.SOURCE
                          IngestChunks.texts Fixtures.table_ab
                          Fixtures.clock0)) _).
  intros k. unfold Fixtures.clock0. cbn [Py.reading].
  rewrite <- Zle_Qle. lia.
Defined.

Section IngestScope.

Variable encode : list string -> list (list Q).
Variable TENANT_ID : Z.
Variable SOURCE : string.

Lemma in_scope_count_app s (t1 t2 : Table) :
  in_scope_count s (t1 ++ t2)
  = (in_scope_count s t1 + in_scope_count s t2)%nat.
Proof. unfold in_scope_count. now rewrite filter_app, length_app. Qed.

(** The ids of the row at position [k] of a batch. *)
Lemma prepare_rows_position pairs i c k r :
  nth_error (fst (IngestChunks.prepare_rows TENANT_ID SOURCE i pairs c)) k
    = Some r ->
  doc_id r = 1%Z /\ chunk_id r = Z.of_nat (i + k).
Proof.
  intros Hk.
  assert (Hlt : (k < List.length pairs)%nat).
  { rewrite <- (prepare_rows_length TENANT_ID SOURCE pairs i c).
    apply nth_error_Some. congruence. }
  destruct (nth_error pairs k) as [[text emb] |] eqn:E.
  - rewrite (@prepare_rows_nth TENANT_ID SOURCE pairs i c k text emb E) in Hk.
    injection Hk as <-. split; reflexivity.
  - apply nth_error_None in E. lia.
Qed.

Lemma NoDup_map_of_nat l : NoDup l -> NoDup (map Z.of_nat l).
Proof.
  induction 1 as [| x l Hx Hl IH]; cbn; constructor; [| exact IH].
  intros Hin. apply in_map_iff in Hin. destruct Hin as (y & Hy & Hin).
  apply Nat2Z.inj in Hy. subst y. exact (Hx Hin).
Qed.

End IngestScope.

(** X16: in whatever order the store keeps the rows after the insert, the
    batch adds its rows to the count of its own scope, leaves the count of
    every other scope unchanged, and every row stored before is still
    stored. *)
Theorem ingest_adds_to_its_scope_only
    (encode : list string -> list (list Q)) (TENANT_ID : Z) (SOURCE : string)
    (texts : list string) (table : Table) (c : Py.Clock) (stored : Table) :
  let rows := fst (fst (ingest encode TENANT_ID SOURCE texts table c)) in
  let table' := snd (fst (ingest encode TENANT_ID SOURCE texts table c)) in
  Permutation stored table' ->
  (forall v k,
     in_scope_count (mkKnnSelect v TENANT_ID SOURCE k) stored
     = (in_scope_count (mkKnnSelect v TENANT_ID SOURCE k) table
        + List.length rows)%nat)
  /\ (forall v k TENANT_ID' SOURCE',
        (TENANT_ID', SOURCE') <> (TENANT_ID, SOURCE) ->
        in_scope_count (mkKnnSelect v TENANT_ID' SOURCE' k) stored
        = in_scope_count (mkKnnSelect v TENANT_ID' SOURCE' k) table)
  /\ (forall r, In r table -> In r stored).
Proof.
  intros rows table' P.
  destruct (ingest_rows encode TENANT_ID SOURCE texts table c) as [_ Et].
  fold rows table' in Et.
  assert (Hscope : forall r, In r rows ->
            tenant_id r = TENANT_ID /\ source r = SOURCE)
    by (intros r Hr; eapply ingest_rows_scope; exact Hr).
  assert (Hcount : forall s,
            in_scope_count s stored = in_scope_count s table').
  { intros s. unfold in_scope_count.
    apply Permutation_length, filter_perm, P. }
  split; [| split].
  - intros v k. rewrite Hcount, Et, in_scope_count_app. f_equal.
    unfold in_scope_count. rewrite filter_all; [reflexivity |].
    intros r Hr. apply in_scope_spec. cbn. apply Hscope, Hr.
  - intros v k T' S' Hne. rewrite Hcount, Et, in_scope_count_app.
    unfold in_scope_count at 2. rewrite filter_none; [cbn; lia |].
    intros r Hr. destruct (in_scope _ r) eqn:E; [| reflexivity].
    apply in_scope_spec in E. cbn in E.
    destruct (Hscope r Hr) as [H1 H2]. destruct E as [E1 E2].
    exfalso. apply Hne. congruence.
  - intros r Hr. apply (Permutation_in _ (Permutation_sym P)).
    rewrite Et. apply in_or_app. now left.
Qed.

Lemma ingest_adds_to_its_scope_only_witness :
  let table' := snd (fst (ingest Fixtures.toy_encode 7 "demo"
                            IngestChunks.texts Fixtures.table_ab
                            Fixtures.clock0)) in
  in_scope_count (mkKnnSelect [1; 0] 7 "demo" 5) (rev table') = 6%nat
  /\ in_scope_count (mkKnnSelect [1; 0] 8 "" 5) (rev table')
     = in_scope_count (mkKnnSelect [1; 0] 8 "" 5) Fixtures.table_ab.
Proof.
  intros table'.
  destruct (@ingest_adds_to_its_scope_only Fixtures.toy_encode 7
              "demo"%string IngestChunks.texts Fixtures.table_ab
              Fixtures.clock0 (rev table')
              (Permutation_sym (Permutation_rev table')))
    as (Hsame & Hother & _).
  split.
  - rewrite (Hsame [1; 0] 5%nat). reflexivity.
  - apply Hother. intros H. discriminate H.
Defined.

(** X17: within one batch every row has [doc_id = 1] and a [chunk_id] of
    its own; the numbering starts again at 0 in every run, so the rows at
    the same position of two runs on one table carry the same
    [(doc_id, chunk_id)], and both stay in the table. *)
Theorem ingest_chunk_ids_restart_each_run
    (encode : list string -> list (list Q)) (TENANT_ID : Z) (SOURCE : string)
    (texts1 texts2 : list string) (table : Table) (c : Py.Clock) :
  let run1 := ingest encode TENANT_ID SOURCE texts1 table c in
  let run2 := ingest encode TENANT_ID SOURCE texts2
                (snd (fst run1)) (snd run1) in
  NoDup (map chunk_id (fst (fst run1)))
  /\ Forall (fun r => doc_id r = 1%Z) (fst (fst run1))
  /\ snd (fst run2) = table ++ fst (fst run1) ++ fst (fst run2)
  /\ (forall k r1 r2,
        nth_error (fst (fst run1)) k = Some r1 ->
        nth_error (fst (fst run2)) k = Some r2 ->
        doc_id r1 = doc_id r2 /\ chunk_id r1 = chunk_id r2).
Proof.
  intros run1 run2.
  destruct (ingest_rows encode TENANT_ID SOURCE texts1 table c) as [Er1 Et1].
  destruct (ingest_rows encode TENANT_ID SOURCE texts2
              (snd (fst run1)) (snd run1)) as [Er2 Et2].
  fold run1 in Er1, Et1. fold run2 in Er2, Et2.
  split; [| split; [| split]].
  - rewrite Er1, prepare_rows_chunk_ids.
    apply NoDup_map_of_nat, seq_NoDup.
  - rewrite Er1. apply prepare_rows_doc_ids.
  - rewrite Et2, Et1, <- app_assoc. reflexivity.
  - intros k r1 r2 H1 H2.
    rewrite Er1 in H1. rewrite Er2 in H2.
    apply prepare_rows_position in H1, H2.
    destruct H1 as [D1 C1], H2 as [D2 C2]. split; congruence.
Qed.

Lemma ingest_chunk_ids_restart_each_run_witness :
  let run1 := ingest Fixtures.toy_encode 7 "demo" ["first"%string]
                Fixtures.table_ab Fixtures.clock0 in
  let run2 := ingest Fixtures.toy_encode 7 "demo" ["second"%string]
                (snd (fst run1)) (snd run1) in
  exists r1 r2,
    nth_error (fst (fst run1)) 0 = Some r1
    /\ nth_error (fst (fst run2)) 0 = Some r2
    /\ content r1 <> content r2
    /\ doc_id r1 = doc_id r2 /\ chunk_id r1 = chunk_id r2.
Proof.
  intros run1 run2.
  eexists. eexists.
  split; [reflexivity |]. split; [reflexivity |].
  split; [intros H; discriminate H |].
  exact (proj2 (proj2 (proj2
           (@ingest_chunk_ids_restart_each_run Fixtures.toy_encode 7
              "demo"%string ["first"%string] ["second"%string]
              Fixtures.table_ab Fixtures.clock0)))
         0%nat _ _ eq_refl eq_refl).
Defined.

(** ** More on the KNN query *)

Section KnnMore.

Variable cosineDistance : list Q -> list Q -> Q.
Local Abbreviation select_rows := (QueryKnn.select_rows cosineDistance).
Local Abbreviation query := (QueryKnn.query cosineDistance).
Local Abbreviation score := (QueryKnn.score cosineDistance).

(** In a sorted list, what comes first is below what comes after. *)
Lemma sorted_app_le {A} (R : A -> A -> Prop) l1 l2 :
  StronglySorted R (l1 ++ l2) ->
  forall a b, In a l1 -> In b l2 -> R a b.
Proof.
  induction l1 as [| x l1 IH]; cbn; intros Hs a b Ha Hb; [destruct Ha |].
  inversion Hs as [| ? ? Hs' Hx]; subst.
  destruct Ha as [<- | Ha].
  - rewrite Forall_forall in Hx. apply Hx, in_or_app. now right.
  - apply IH; assumption.
Qed.

Lemma StronglySorted_impl {A} (R R' : A -> A -> Prop) l :
  (forall a b, R a b -> R' a b) ->
  StronglySorted R l -> StronglySorted R' l.
Proof.
  intros H. induction 1 as [| x l Hl IH Hx]; constructor; [exact IH |].
  eapply Forall_impl; [| exact Hx]. intros y. apply H.
Qed.

(** One sorted arrangement only, when the order is antisymmetric on the
    elements of the list. *)
Lemma sorted_arrangement_unique {A} (R : A -> A -> Prop) (l1 l2 : list A) :
  (forall a, R a a) ->
  Permutation l1 l2 ->
  StronglySorted R l1 -> StronglySorted R l2 ->
  (forall a b, In a l1 -> In b l1 -> R a b -> R b a -> a = b) ->
  l1 = l2.
Proof.
  intros Rrefl. revert l2.
  induction l1 as [| a l1 IH]; intros l2 P S1 S2 Anti.
  - symmetry. apply Permutation_nil, P.
  - destruct l2 as [| b l2].
    { apply Permutation_sym, Permutation_nil in P. discriminate P. }
    inversion S1 as [| ? ? S1' F1]; subst.
    inversion S2 as [| ? ? S2' F2]; subst.
    rewrite Forall_forall in F1, F2.
    assert (Hba : R b a).
    { destruct (Permutation_in _ P (or_introl eq_refl)) as [-> | Hin];
        [apply Rrefl | apply F2, Hin]. }
    assert (Hb : In b (a :: l1))
      by (apply (Permutation_in _ (Permutation_sym P)); now left).
    assert (Hab : R a b).
    { destruct Hb as [-> | Hin]; [apply Rrefl | apply F1, Hin]. }
    assert (E : a = b) by (apply Anti; auto; now left).
    subst b. f_equal. apply IH; auto.
    + eapply Permutation_cons_inv, P.
    + intros x y Hx Hy. apply Anti; now right.
Qed.

(** The scores of the candidates, as reduced fractions, do not depend on
    the order of the table. *)
Lemma candidate_scores_scan_order s table1 table2 :
  Permutation table1 table2 ->
  map (fun x => Qred (snd x))
      (order_by_score
         (map (fun r => (r, score s r)) (filter (in_scope s) table1)))
  = map (fun x => Qred (snd x))
      (order_by_score
         (map (fun r => (r, score s r)) (filter (in_scope s) table2))).
Proof.
  intros P.
  apply sorted_arrangement_unique with (R := Qle).
  - apply Qle_refl.
  - apply Permutation_map.
    eapply perm_trans; [apply order_by_score_perm |].
    eapply perm_trans; [| apply Permutation_sym, order_by_score_perm].
    apply Permutation_map, filter_perm, P.
  - apply map_sorted.
    eapply StronglySorted_impl; [| apply order_by_score_sorted].
    intros a b H. unfold le_score in H. now rewrite !Qred_correct.
  - apply map_sorted.
    eapply StronglySorted_impl; [| apply order_by_score_sorted].
    intros a b H. unfold le_score in H. now rewrite !Qred_correct.
  - intros a b Ha Hb Hab Hba.
    apply in_map_iff in Ha, Hb.
    destruct Ha as (x & <- & _), Hb as (y & <- & _).
    apply Qred_complete. rewrite !Qred_correct in Hab, Hba.
    apply Qle_antisym; assumption.
Qed.

End KnnMore.

(** X18: the query returns the nearest rows: a row of the scope whose score
    is strictly smaller than the score of some returned row is itself
    among the returned rows. *)
Theorem knn_returns_the_nearest
    (cosineDistance : list Q -> list Q -> Q) (s : KnnSelect) (table : Table)
    (x : VectorRecord * Q) (r : VectorRecord) :
  In x (select_rows cosineDistance s table) ->
  In r table -> in_scope s r = true ->
  (score cosineDistance s r < snd x)%Q ->
  In (r, score cosineDistance s r) (select_rows cosineDistance s table).
Proof.
  intros Hx Hr Hs Hlt. unfold select_rows in *.
  set (l := order_by_score
              (map (fun r0 => (r0, score cosineDistance s r0))
                   (filter (in_scope s) table))) in *.
  assert (Hl : In (r, score cosineDistance s r) l).
  { apply (Permutation_in _ (Permutation_sym (order_by_score_perm _))).
    apply in_map_iff. exists r. split; [reflexivity |].
    apply filter_In. tauto. }
  rewrite <- (firstn_skipn (q_limit s) l) in Hl.
  apply in_app_or in Hl. destruct Hl as [Hl | Hl]; [exact Hl | exfalso].
  assert (Hsorted : StronglySorted le_score
                      (firstn (q_limit s) l ++ skipn (q_limit s) l)).
  { rewrite firstn_skipn. apply order_by_score_sorted. }
  pose proof (@sorted_app_le _ _ _ _ Hsorted _ _ Hx Hl) as Hle.
  unfold le_score in Hle. cbn [snd] in Hle.
  apply (Qlt_not_le _ _ Hlt). exact Hle.
Qed.

Lemma knn_returns_the_nearest_witness :
  In (Fixtures.row_a, 0)
     (select_rows Fixtures.unit_distance (mkKnnSelect [1; 0] 7 "demo" 2)
        Fixtures.table_da).
Proof.
  apply (@knn_returns_the_nearest Fixtures.unit_distance
           (mkKnnSelect [1; 0] 7 "demo" 2) Fixtures.table_da
           (Fixtures.row_d, 1) Fixtures.row_a).
  - vm_compute. right. left. reflexivity.
  - right. right. left. reflexivity.
  - reflexivity.
  - reflexivity.
Defined.

(** X19: when no two rows in scope have equal scores, asking for fewer
    rows gives a prefix of what asking for more gives, whichever order the
    server picks among those in which the scores do not decrease: for
    [k <= k'], an answer for [top_k = k] is the first [k] rows of any
    answer for [top_k = k'].  The rows the model selects are one of these
    answers.  With rows of equal score this fails: the server may answer
    one of them for [top_k = 1] and put the other first for
    [top_k = 2]. *)
Theorem knn_smaller_top_k_is_prefix
    (cosineDistance : list Q -> list Q -> Q)
    (v : list Q) (TENANT_ID : Z) (SOURCE : string) (k k' : nat)
    (table : Table) (answer answer' : list (VectorRecord * Q)) :
  (k <= k')%nat ->
  no_ties cosineDistance (mkKnnSelect v TENANT_ID SOURCE k)
    (filter (in_scope (mkKnnSelect v TENANT_ID SOURCE k)) table) ->
  valid_answer cosineDistance (mkKnnSelect v TENANT_ID SOURCE k) table
    answer ->
  valid_answer cosineDistance (mkKnnSelect v TENANT_ID SOURCE k') table
    answer' ->
  answer = firstn k answer'
  /\ valid_answer cosineDistance (mkKnnSelect v TENANT_ID SOURCE k) table
       (select_rows cosineDistance (mkKnnSelect v TENANT_ID SOURCE k) table)
  /\ (exists one two,
        valid_answer Fixtures.unit_distance (mkKnnSelect [1; 0] 7 "demo" 1)
          Fixtures.table_ab one
        /\ valid_answer Fixtures.unit_distance
             (mkKnnSelect [1; 0] 7 "demo" 2) Fixtures.table_ab two
        /\ one <> firstn 1 two).
Proof.
  intros Hk NT (l & Pl & Sl & ->) (l' & Pl' & Sl' & ->). cbn [q_limit].
  split; [| split].
  - assert (E : l = l').
    { apply sorted_perm_unique; [| exact Sl | exact Sl' |].
      - eapply perm_trans; [exact Pl | apply Permutation_sym, Pl'].
      - intros a b Ha Hb Lab Lba.
        apply (Permutation_in _ Pl) in Ha, Hb.
        apply in_map_iff in Ha, Hb.
        destruct Ha as (ra & <- & Ha), Hb as (rb & <- & Hb).
        unfold le_score in *. cbn [snd] in *.
        assert (E : ra = rb) by (apply NT; auto; apply Qle_antisym; assumption).
        now subst. }
    subst l'. rewrite firstn_firstn, Nat.min_l by exact Hk. reflexivity.
  - eexists. split; [apply order_by_score_perm |].
    split; [apply order_by_score_sorted | reflexivity].
  - exists [(Fixtures.row_a, 0)], [(Fixtures.row_b, 0); (Fixtures.row_a, 0)].
    split; [| split].
    + exists [(Fixtures.row_a, 0); (Fixtures.row_b, 0)].
      split; [apply Permutation_refl |]. split; [| reflexivity].
      repeat constructor; unfold le_score; cbn; apply Qle_refl.
    + exists [(Fixtures.row_b, 0); (Fixtures.row_a, 0)].
      split; [apply perm_swap |]. split; [| reflexivity].
      repeat constructor; unfold le_score; cbn; apply Qle_refl.
    + intros H. discriminate H.
Qed.

Lemma knn_smaller_top_k_is_prefix_witness :
  select_rows Fixtures.unit_distance (mkKnnSelect [1; 0] 7 "demo" 1)
    Fixtures.table_da
  = firstn 1 (select_rows Fixtures.unit_distance
                (mkKnnSelect [1; 0] 7 "demo" 5) Fixtures.table_da).
Proof.
  refine (proj1 (@knn_smaller_top_k_is_prefix Fixtures.unit_distance
                   [1; 0] 7 "demo"%string 1 5 Fixtures.table_da
                   _ _ ltac:(lia) _ _ _)).
  - intros a b Ha Hb E. cbn in Ha, Hb.
    destruct Ha as [<- | [<- | []]], Hb as [<- | [<- | []]];
      try reflexivity; vm_compute in E; discriminate E.
  - eexists. split; [apply order_by_score_perm |].
    split; [apply order_by_score_sorted | reflexivity].
  - eexists. split; [apply order_by_score_perm |].
    split; [apply order_by_score_sorted | reflexivity].
Defined.

(** X20: the scores returned do not depend on the order in which the store
    scans the table, ties or not: over two orders of the same rows the
    results have the same scores, as reduced fractions, position by
    position (only the rows that carry tied scores may differ). *)
Theorem knn_scores_independent_of_scan_order
    (cosineDistance : list Q -> list Q -> Q) (s : KnnSelect)
    (table1 table2 : Table) :
  Permutation table1 table2 ->
  map (fun y => Qred (snd y)) (query cosineDistance s table1)
  = map (fun y => Qred (snd y)) (query cosineDistance s table2).
Proof.
  intros P. unfold query, select_rows. rewrite !map_map. cbn [snd].
  rewrite <- !firstn_map. f_equal.
  apply candidate_scores_scan_order, P.
Qed.

Lemma knn_scores_independent_of_scan_order_witness :
  map (fun y => Qred (snd y))
      (query Fixtures.unit_distance (mkKnnSelect [1; 0] 7 "demo" 5)
         Fixtures.table_ab)
  = map (fun y => Qred (snd y))
      (query Fixtures.unit_distance (mkKnnSelect [1; 0] 7 "demo" 5)
         Fixtures.table_ba).
Proof.
  apply knn_scores_independent_of_scan_order.
  unfold Fixtures.table_ab, Fixtures.table_ba. apply perm_swap.
Defined.

(** X21: the result never holds more copies of a row than the table holds
    in the scope: the returned rows, together with some rows left out, are
    exactly the rows of the scope. *)
Theorem knn_returns_each_stored_row_at_most_once
    (cosineDistance : list Q -> list Q -> Q) (s : KnnSelect) (table : Table) :
  exists left_out,
    Permutation (map fst (select_rows cosineDistance s table) ++ left_out)
                (filter (in_scope s) table)
    /\ List.length left_out = (in_scope_count s table - q_limit s)%nat.
Proof.
  unfold select_rows.
  set (l := order_by_score
              (map (fun r => (r, score cosineDistance s r))
                   (filter (in_scope s) table))).
  exists (map fst (skipn (q_limit s) l)). split.
  - rewrite <- map_app, firstn_skipn.
    eapply perm_trans; [apply Permutation_map, order_by_score_perm |].
    rewrite map_map. cbn [fst]. rewrite map_id. apply Permutation_refl.
  - rewrite length_map, length_skipn. unfold l.
    rewrite candidates_length. reflexivity.
Qed.

(** X22: ingest then query: on a table that holds nothing yet under the
    scope of the script, once a batch is written with one embedding per
    text, a query under that scope (its source holding neither a quote nor
    a backslash) whose question is embedded in the dimension of the batch,
    with [top_k] at least the number of texts, returns the texts of the
    batch, all of them and nothing else, in some order. *)
Theorem ingest_then_query_returns_the_batch
    (encode : list string -> list (list Q))
    (cosineDistance : list Q -> list Q -> Q)
    (TENANT_ID : Z) (SOURCE : string)
    (texts : list string) (table : Table) (c : Py.Clock)
    (QUESTION : string) (TOP_K : nat) (v : list Q) (vs : list (list Q)) :
  sql_plain SOURCE = true ->
  List.length (encode texts) = List.length texts ->
  encode [QUESTION] = v :: vs ->
  Forall (fun e => List.length e = List.length v) (encode texts) ->
  in_scope_count (mkKnnSelect v TENANT_ID SOURCE TOP_K) table = 0%nat ->
  (List.length texts <= TOP_K)%nat ->
  exists result,
    knn_query encode cosineDistance TENANT_ID SOURCE TOP_K QUESTION
      (snd (fst (ingest encode TENANT_ID SOURCE texts table c)))
    = ([mkKnnSelect v TENANT_ID SOURCE TOP_K], Py.Returned result)
    /\ Permutation (map fst result) texts.
Proof.
  intros _ Hlen Hq Hdim Hfresh Hk.
  set (sql := mkKnnSelect v TENANT_ID SOURCE TOP_K) in *.
  destruct (ingest_rows encode TENANT_ID SOURCE texts table c) as [Er Et].
  set (rows := fst (fst (ingest encode TENANT_ID SOURCE texts table c))) in *.
  set (table' := snd (fst (ingest encode TENANT_ID SOURCE texts table c))) in *.
  assert (Hrows : map content rows = texts).
  { rewrite Er, prepare_rows_contents. apply combine_fst. lia. }
  assert (Hemb : map embedding rows = encode texts).
  { rewrite Er, prepare_rows_embeddings, combine_snd_firstn.
    apply firstn_all2. lia. }
  assert (Hscope : filter (in_scope sql) table' = rows).
  { rewrite Et, filter_app.
    assert (E0 : filter (in_scope sql) table = []).
    { unfold in_scope_count in Hfresh.
      destruct (filter (in_scope sql) table); [reflexivity | discriminate]. }
    rewrite E0. cbn [app]. apply filter_all.
    intros r Hr. apply in_scope_spec. cbn.
    eapply ingest_rows_scope. exact Hr. }
  assert (Hsizes : sizes_match sql table' = true).
  { unfold sizes_match. rewrite Hscope. apply forallb_forall.
    intros r Hr. apply Nat.eqb_eq. cbn [q_vector sql].
    rewrite Forall_forall in Hdim. apply Hdim.
    rewrite <- Hemb. apply in_map, Hr. }
  exists (query cosineDistance sql table'). split.
  { unfold knn_query. rewrite Hq. fold sql. unfold ch_query.
    rewrite Hsizes. reflexivity. }
  unfold query, select_rows. rewrite Hscope.
  rewrite firstn_all2.
  2: { rewrite (Permutation_length (order_by_score_perm _)), length_map.
       cbn [q_limit sql]. rewrite <- Hrows, length_map in Hk. exact Hk. }
  rewrite map_map. cbn [fst]. rewrite <- Hrows.
  rewrite <- (map_map fst content).
  apply Permutation_map.
  eapply perm_trans; [apply Permutation_map, order_by_score_perm |].
  rewrite map_map. cbn [fst]. rewrite map_id. apply Permutation_refl.
Qed.

Lemma ingest_then_query_returns_the_batch_witness :
  exists result,
    knn_query Fixtures.toy_encode Fixtures.unit_distance
      IngestChunks.TENANT_ID IngestChunks.SOURCE 5 "which?"
      (snd (fst (ingest Fixtures.toy_encode IngestChunks.TENANT_ID
                   IngestChunks.SOURCE IngestChunks.texts
                   Fixtures.table_ab Fixtures.clock0)))
    = ([mkKnnSelect [1; 0] IngestChunks.TENANT_ID IngestChunks.SOURCE 5],
       Py.Returned result)
    /\ Permutation (map fst result) IngestChunks.texts.
Proof.
  apply (@ingest_then_query_returns_the_batch Fixtures.toy_encode
           Fixtures.unit_distance IngestChunks.TENANT_ID IngestChunks.SOURCE
           IngestChunks.texts Fixtures.table_ab Fixtures.clock0
           "which?"%string 5%nat [1; 0] []).
  - reflexivity.
  - reflexivity.
  - reflexivity.
  - repeat constructor.
  - reflexivity.
  - cbn. lia.
Defined.

(** ** The whole of ingest_chunks.py *)

(** X23: the script fails before it inserts anything when the model
    returns no embedding (as for an empty list of texts): it ends with
    [IndexError] at the print of the dimension, the table and the clock
    untouched; in every other case it ends normally after exactly one
    insert, whose rows are the table's new rows, and the dimension it
    prints is that of the first embedding only. *)
Theorem ingest_script_one_insert_or_none
    (encode : list string -> list (list Q)) (TENANT_ID : Z) (SOURCE : string)
    (texts : list string) (table : Table) (c : Py.Clock) :
  (encode texts = [] ->
   IngestScript.run encode TENANT_ID SOURCE texts table c
   = ([IngestScript.Generated 0], Py.Raised (Py.Exn "IndexError"), table, c))
  /\ (forall first others,
        encode texts = first :: others ->
        let rows := fst (fst (ingest encode TENANT_ID SOURCE texts table c)) in
        IngestScript.run encode TENANT_ID SOURCE texts table c
        = ([IngestScript.Generated (S (List.length others));
            IngestScript.EmbeddingDimension (List.length first);
            IngestScript.Insert rows;
            IngestScript.Inserted],
           Py.Returned tt,
           table ++ rows,
           snd (ingest encode TENANT_ID SOURCE texts table c))
        /\ List.length rows
           = Nat.min (List.length texts) (S (List.length others))).
Proof.
  split.
  - intros E. unfold IngestScript.run. rewrite E. reflexivity.
  - intros first others E rows.
    assert (Hlen : List.length rows
              = Nat.min (List.length texts) (S (List.length others))).
    { unfold rows.
      rewrite (proj1 (ingest_rows encode TENANT_ID SOURCE texts table c)).
      rewrite prepare_rows_length, length_combine, E. reflexivity. }
    split; [| exact Hlen].
    unfold rows, IngestScript.run, IngestChunks.ingest, rows_of, insert.
    rewrite E.
    destruct (IngestChunks.prepare_rows TENANT_ID SOURCE 0
                (combine texts (first :: others)) c) as [rs c'].
    reflexivity.
Qed.

Lemma ingest_script_one_insert_or_none_witness :
  IngestScript.run Fixtures.toy_encode 7 "demo" [] Fixtures.table_ab
    Fixtures.clock0
  = ([IngestScript.Generated 0], Py.Raised (Py.Exn "IndexError"),
     Fixtures.table_ab, Fixtures.clock0)
  /\ snd (fst (fst (IngestScript.run Fixtures.toy_encode 7 "demo"
                      ["late chunk"%string] Fixtures.table_ab
                      Fixtures.clock0)))
     = Py.Returned tt.
Proof.
  split.
  - exact (proj1 (@ingest_script_one_insert_or_none Fixtures.toy_encode 7
                    "demo"%string [] Fixtures.table_ab Fixtures.clock0)
                 eq_refl).
  - destruct (proj2 (@ingest_script_one_insert_or_none Fixtures.toy_encode 7
                       "demo"%string ["late chunk"%string]
                       Fixtures.table_ab Fixtures.clock0)
                    [1; 0] [] eq_refl) as [E _].
    rewrite E. reflexivity.
Defined.

(** X24: [main] reaches the prompts only when its two queries succeed:
    when the poll raises, or when the merges query raises, [main] raises
    the same error before any prompt: no typed line is read and no command
    is sent.  The merges query is filtered by the table name only when the
    name is neither [None] nor empty. *)
Theorem main_fails_before_prompting
    (Server : Type) (strip lower : string -> string)
    (ch : Client Server) (TABLE : option string) (w : World Server) :
  (forall x s1,
     query_pool ch (server w) = (Py.Raised x, s1) ->
     main strip lower ch TABLE w
     = (Py.Raised x, {| server := s1; clock := clock w; stdin := stdin w |},
        [PoolQuery]))
  /\ (forall a p s1 x s2,
        query_pool ch (server w) = (Py.Returned (a, p), s1) ->
        query_merges ch (merges_filter TABLE) s1 = (Py.Raised x, s2) ->
        exists st,
          pool_status_of a p = Py.Returned st
          /\ main strip lower ch TABLE w
             = (Py.Raised x,
                {| server := s2; clock := clock w; stdin := stdin w |},
                [PoolQuery; ShowPoolStatus st;
                 MergesQuery (merges_filter TABLE)]))
  /\ merges_filter (Some ""%string) = None.
Proof.
  split; [| split; [| reflexivity]].
  - intros x s1 H1.
    unfold main, check_background_pool_status, bind, call.
    rewrite H1. reflexivity.
  - intros a p s1 x s2 H1 H2. eexists.
    split; [apply pool_status_of_value |].
    unfold main, check_background_pool_status, print_pool_status,
      check_merge_operations.
    unfold bind at 1. unfold bind at 1. unfold call at 1. rewrite H1.
    unfold lift at 1. rewrite pool_status_of_value.
    unfold bind at 1. unfold emit at 1.
    unfold bind at 1. unfold bind at 1.
    unfold merges_filter in *.
    destruct (Py.truthy TABLE); unfold call at 1; cbn [server];
      rewrite H2; reflexivity.
Qed.

Lemma main_fails_before_prompting_witness :
  main Fixtures.ascii_strip Fixtures.ascii_lower
      Servers.merges_down_client (Some ""%string)
    (Fixtures.world0 tt ["yes"%string])
  = (Py.Raised (Py.Exn "Code: 497. ACCESS_DENIED"),
     Fixtures.world0 tt ["yes"%string],
     [PoolQuery; ShowPoolStatus (mkPoolStatus 3 16 13 (75 # 4) false);
      MergesQuery None]).
Proof.
  destruct (proj1 (proj2 (@main_fails_before_prompting unit
                            Fixtures.ascii_strip Fixtures.ascii_lower
                            Servers.merges_down_client (Some ""%string)
                            (Fixtures.world0 tt ["yes"%string])))
                  3%Z 16%Z tt (Py.Exn "Code: 497. ACCESS_DENIED") tt
                  eq_refl eq_refl) as (st & Est & E).
  injection Est as <-. exact E.
Defined.
